(** * Birth-statistics dashboard: the decode / filter / aggregate pipeline

    A shallow embedding of the data pipeline of [streamlit_app.py]: the code
    dictionaries, [to_int_series], the sidebar filter that builds [_df],
    the label decoding and the KPI aggregates.

    Modelling conventions.
    - A pandas cell is a [raw] value: a number, NaN / None, or text.  Floats
      are modelled by the rationals they denote (every finite float is one);
      infinities are not modelled.  Arithmetic on them is exact here, while
      pandas rounds every float64 operation: a mean can differ from the
      model's in the last place.
    - pandas converts a column to float64 as soon as one cell is missing,
      does not parse or is a float, so an integer beyond 2^53 is read
      rounded; the model casts cell by cell and exactly.  The two agree on
      the cells that [float_exact] accepts.
    - [pd.to_numeric(_, errors="coerce")] is applied cell by cell.  Its text
      parser belongs to pandas, so the pipeline takes it as a parameter
      ([parse_text]); [parse_decimal] is one instance, used for the concrete
      examples.
    - Code that can raise returns a [result]; a pandas Series is a list, a
      DataFrame is a list of rows together with the optional-column flag.
    - Python dictionaries are [gmap]s, built from their literal item lists in
      insertion order. *)

From Stdlib Require Import ZArith QArith String Ascii List Bool Lia Btauto.
From stdpp Require Import base option list gmap strings fin_maps sorting.

Open Scope Z_scope.

(** ** Cells, exceptions *)

Inductive raw : Type :=
  | RNum (q : Q)         (* an int or a finite float *)
  | RNaN                 (* NaN / None / empty CSV field *)
  | RStr (s : string).   (* text, as in an object column *)

Inductive exn : Type := TypeError | KeyError.

Inductive result (A : Type) : Type :=
  | Ok (a : A)
  | Raise (e : exn).
Arguments Ok {A} a.
Arguments Raise {A} e.

#[global] Instance result_ret : MRet result := fun A a => Ok a.
#[global] Instance result_bind : MBind result :=
  fun A B f m => match m with Ok a => f a | Raise e => Raise e end.
#[global] Instance result_fmap : FMap result :=
  fun A B f m => match m with Ok a => Ok (f a) | Raise e => Raise e end.

(** ** Code dictionaries (lines 60-79) *)

(** A dict literal / dict comprehension: the items are inserted one after the
    other, a later item overwriting an earlier one with the same key. *)
Definition dict_of_items {K V} `{Countable K} (items : list (K * V)) : gmap K V :=
  foldl (fun m kv => <[kv.1 := kv.2]> m) ∅ items.

(** [{v: k for k, v in d.items()}] *)
Definition dict_reversed {K V} `{Countable V} (items : list (K * V)) : gmap V K :=
  dict_of_items (map (fun kv => (kv.2, kv.1)) items).

Definition REGION_MAP_items : list (Z * string) :=
  [ (11, "서울특별시"); (21, "부산광역시"); (22, "대구광역시"); (23, "인천광역시");
    (24, "광주광역시"); (25, "대전광역시"); (26, "울산광역시"); (29, "세종특별자치시");
    (31, "경기도"); (32, "강원도"); (33, "충청북도"); (34, "충청남도");
    (35, "전라북도"); (36, "전라남도"); (37, "경상북도"); (38, "경상남도");
    (39, "제주특별자치도") ]%string.
Definition REGION_MAP : gmap Z string := dict_of_items REGION_MAP_items.
Definition REGION_MAP_REV : gmap string Z := dict_reversed REGION_MAP_items.

Definition AGE_MAP_items : list (Z * string) :=
  [ (1, "0~14세"); (2, "15~19세"); (3, "20~24세"); (4, "25~29세"); (5, "30~34세");
    (6, "35~39세"); (7, "40~44세"); (8, "45~49세"); (9, "50세 이상"); (99, "미상") ]%string.
Definition AGE_MAP : gmap Z string := dict_of_items AGE_MAP_items.

Definition MULTI_ORDER_MAP_items : list (Z * string) :=
  [ (1, "첫째"); (2, "둘째"); (3, "셋째"); (4, "넷째"); (9, "미상") ]%string.
Definition MULTI_ORDER_MAP : gmap Z string := dict_of_items MULTI_ORDER_MAP_items.

Definition MULTI_TYPE_MAP_items : list (Z * string) :=
  [ (1, "단태아"); (2, "쌍태아"); (3, "삼태아이상"); (9, "미상") ]%string.
Definition MULTI_TYPE_MAP : gmap Z string := dict_of_items MULTI_TYPE_MAP_items.

Definition MOTHER_TOTAL_CHILD_MAP_items : list (Z * string) :=
  [ (1, "1명"); (2, "2명"); (3, "3명"); (4, "4명"); (5, "5명"); (6, "6명");
    (7, "7명"); (8, "8명 이상"); (99, "미상") ]%string.
Definition MOTHER_TOTAL_CHILD_MAP : gmap Z string :=
  dict_of_items MOTHER_TOTAL_CHILD_MAP_items.

Definition NATIONALITY_MAP_items : list (Z * string) :=
  [ (1, "출생한국인"); (2, "귀화한국인"); (3, "외국"); (9, "미상") ]%string.
Definition NATIONALITY_MAP : gmap Z string := dict_of_items NATIONALITY_MAP_items.

(** The dictionaries local to the sidebar (lines 133, 137, 140). *)
Definition gender_map_items : list (Z * string) := [ (1, "남"); (2, "여") ]%string.
Definition multiple_map_items : list (Z * string) := MULTI_TYPE_MAP_items.
Definition marital_map_items : list (Z * string) :=
  [ (1, "혼인 중 출생"); (2, "혼인 외 출생") ]%string.

Definition rev_gender : gmap string Z := dict_reversed gender_map_items.
Definition rev_multiple : gmap string Z := dict_reversed multiple_map_items.
Definition rev_marital : gmap string Z := dict_reversed marital_map_items.

(** [d[k]]: a missing key raises [KeyError]. *)
Definition getitem {K V} `{Countable K} (d : gmap K V) (k : K) : result V :=
  match d !! k with
  | Some v => Ok v
  | None => Raise KeyError
  end.

(** The label "전체" ("all") of the select boxes. *)
Definition ALL : string := "전체"%string.

(** ** A text parser for the examples

    Plain decimal literals: an optional sign, digits, at most one point, at
    least one digit.  Everything else is rejected. *)

Definition digit_of (a : ascii) : option Z :=
  let n := Z.of_nat (nat_of_ascii a) in
  if (48 <=? n) && (n <=? 57) then Some (n - 48) else None.

Fixpoint scan_decimal (s : string) (seen_dot : bool) (num : Z) (den : positive)
    (ndigits : nat) : option Q :=
  match s with
  | EmptyString => match ndigits with O => None | S _ => Some (num # den) end
  | String a s' =>
      if Ascii.eqb a "."%char then
        if seen_dot then None else scan_decimal s' true num den ndigits
      else
        match digit_of a with
        | Some d =>
            scan_decimal s' seen_dot (10 * num + d)
              (if seen_dot then (10 * den)%positive else den) (S ndigits)
        | None => None
        end
  end.

Definition parse_decimal (s : string) : option Q :=
  match s with
  | String a s' =>
      if Ascii.eqb a "-"%char then Qopp <$> scan_decimal s' false 0 1 0
      else if Ascii.eqb a "+"%char then scan_decimal s' false 0 1 0
      else scan_decimal s false 0 1 0
  | EmptyString => None
  end.

(** ** Rows, data frames and the filter specification *)

(** One birth record.  The fields are the columns the pipeline reads. *)
Record row : Type := Row {
  idx : nat;                      (* the index label of the row *)
  year : raw;                     (* 연도 *)
  region_code : raw;              (* 출생자주소지_행정구역시도코드 *)
  gender_code : raw;              (* 성별코드 *)
  birth_month : raw;              (* 출생월 *)
  multi_type_code : raw;          (* 다태아분류코드 *)
  marital_code : raw;             (* 결혼중외의자녀여부코드 *)
  weight : raw;                   (* 출생아체중 *)
  cohab : raw;                    (* 부모동거기간, read only when the column exists *)
  father_age_code : raw;          (* 부연령_5세단위코드 *)
  mother_age_code : raw;          (* 모연령_5세단위코드 *)
  multi_order_code : raw;         (* 다태아출산순위코드 *)
  mother_total_child_code : raw;  (* 모총출생아수코드 *)
  father_nat_code : raw;          (* 부_국적구분코드 *)
  mother_nat_code : raw           (* 모_국적구분코드 *)
}.

(** [has_cohab] is ["부모동거기간" in df.columns]. *)
Record DataFrame : Type := Frame {
  has_cohab : bool;
  rows : list row
}.

(** The values of the sidebar widgets (lines 127-151). *)
Record filter_spec : Type := Spec {
  selected_year : option Z;             (* [None] is "전체" *)
  selected_regions_name : list string;
  selected_genders : list string;
  selected_months : list Z;
  selected_multiple : string;           (* "전체" or a label *)
  selected_marital : string;            (* "전체" or a label *)
  selected_wt : Q * Q;
  exclude_na : bool
}.

(** [_df[col] = value], for the two columns the pipeline overwrites. *)
Definition set_weight (r : row) (c : raw) : row :=
  Row (idx r) (year r) (region_code r) (gender_code r) (birth_month r)
      (multi_type_code r) (marital_code r) c (cohab r)
      (father_age_code r) (mother_age_code r) (multi_order_code r)
      (mother_total_child_code r) (father_nat_code r) (mother_nat_code r).

Definition set_cohab (r : row) (c : raw) : row :=
  Row (idx r) (year r) (region_code r) (gender_code r) (birth_month r)
      (multi_type_code r) (marital_code r) (weight r) c
      (father_age_code r) (mother_age_code r) (multi_order_code r)
      (mother_total_child_code r) (father_nat_code r) (mother_nat_code r).

(** ** Series operations *)

Definition INT64_MIN : Z := - 2 ^ 63.
Definition INT64_MAX : Z := 2 ^ 63 - 1.

(** A float cell written back into a frame. *)
Definition of_numeric (x : option Q) : raw :=
  match x with
  | Some q => RNum q
  | None => RNaN
  end.

(** Reading a cell of a numeric column. *)
Definition as_float (c : raw) : option Q :=
  match c with
  | RNum q => Some q
  | _ => None
  end.

(** [.astype("Int64")] on one value: a missing value stays missing, a value
    that is not exactly an int64 makes pandas raise
    "cannot safely cast non-equivalent float64 to int64". *)
Definition astype_Int64_cell (x : option Q) : result (option Z) :=
  match x with
  | None => Ok None
  | Some q =>
      let z := Qnum q / Zpos (Qden q) in
      if Qeq_bool (inject_Z z) q && (INT64_MIN <=? z) && (z <=? INT64_MAX)
      then Ok (Some z)
      else Raise TypeError
  end.

Definition astype_Int64 (s : list (option Q)) : result (list (option Z)) :=
  mapM astype_Int64_cell s.

(** [.astype(int)] on a float: truncation toward zero; out of range the cast
    yields the x86-64 "integer indefinite" value. *)
Definition astype_int (q : Q) : Z :=
  let z := Z.quot (Qnum q) (Zpos (Qden q)) in
  if (INT64_MIN <=? z) && (z <=? INT64_MAX) then z else INT64_MIN.

Definition is_some {A} (x : option A) : bool :=
  match x with
  | Some _ => true
  | None => false
  end.

(** [s == v] on a nullable integer series: missing compares to missing. *)
Definition series_eq (s : list (option Z)) (v : Z) : list (option bool) :=
  map (fun c => match c with Some z => Some (z =? v) | None => None end) s.

(** [s.isin(values)]: a missing value is in no list. *)
Definition isin (s : list (option Z)) (values : list Z) : list bool :=
  map (fun c => match c with Some z => existsb (Z.eqb z) values | None => false end) s.

(** A nullable mask used as an indexer: missing counts as [False]. *)
Definition na_as_false (mask : list (option bool)) : list bool :=
  map (fun b => match b with Some true => true | _ => false end) mask.

(** [df[mask]] *)
Definition getitem_mask {A} (df : list A) (mask : list bool) : list A :=
  map fst (List.filter snd (combine df mask)).

(** [s.between(lo, hi, inclusive="both")] on a float series. *)
Definition between (s : list (option Q)) (lo hi : Q) : list bool :=
  map (fun x => match x with
                | Some q => Qle_bool lo q && Qle_bool q hi
                | None => false
                end) s.

(** [s != v] on a float series: NaN differs from everything. *)
Definition series_ne (s : list (option Q)) (v : Q) : list bool :=
  map (fun x => match x with Some q => negb (Qeq_bool q v) | None => true end) s.

Definition isna (c : raw) : bool :=
  match c with
  | RNaN => true
  | _ => false
  end.

(** [s.fillna(v)] *)
Definition fillna (v : Q) (s : list (option Q)) : list Q :=
  map (fun x => match x with Some q => q | None => v end) s.

(** [s.replace(v, pd.NA)] *)
Definition replace_with_na (v : Q) (s : list (option Q)) : list (option Q) :=
  map (fun x => match x with
                | Some q => if Qeq_bool q v then None else Some q
                | None => None
                end) s.

(** [s.dropna()] *)
Definition dropna {A} (s : list (option A)) : list A := omap id s.

Definition Qsum (xs : list Q) : Q := foldl Qplus 0%Q xs.

(** [.mean()] of a float series skips the missing values and is NaN when
    nothing is left.  The mean is exact; pandas' float64 sum and division
    can differ from it in the last place. *)
Definition series_mean (s : list (option Q)) : option Q :=
  match dropna s with
  | [] => None
  | xs => Some (Qsum xs / inject_Z (Z.of_nat (length xs)))%Q
  end.

(** [.mean()] of a boolean series: the share of [True]; NaN when empty. *)
Definition bool_mean (s : list bool) : option Q :=
  match s with
  | [] => None
  | _ => Some (inject_Z (Z.of_nat (length (List.filter (fun b : bool => b) s)))
               / inject_Z (Z.of_nat (length s)))%Q
  end.

(** [Series.map(d)] on one value, and on a series. *)
Definition map_cell (d : gmap Z string) (c : option Z) : option string :=
  match c with
  | Some z => d !! z
  | None => None
  end.

Definition series_map (d : gmap Z string) (s : list (option Z)) : list (option string) :=
  map (map_cell d) s.

(** The decoded label columns of lines 192-204. *)
Inductive field : Type :=
  | FRegion | FFatherAge | FMotherAge | FMultiOrder | FMultiType
  | FMotherTotalChild | FFatherNat | FMotherNat.

Definition dict_of_field (f : field) : gmap Z string :=
  match f with
  | FRegion => REGION_MAP
  | FFatherAge | FMotherAge => AGE_MAP
  | FMultiOrder => MULTI_ORDER_MAP
  | FMultiType => MULTI_TYPE_MAP
  | FMotherTotalChild => MOTHER_TOTAL_CHILD_MAP
  | FFatherNat | FMotherNat => NATIONALITY_MAP
  end.

Definition code_column (f : field) : row -> raw :=
  match f with
  | FRegion => region_code
  | FFatherAge => father_age_code
  | FMotherAge => mother_age_code
  | FMultiOrder => multi_order_code
  | FMultiType => multi_type_code
  | FMotherTotalChild => mother_total_child_code
  | FFatherNat => father_nat_code
  | FMotherNat => mother_nat_code
  end.

Definition decode (f : field) (code : option Z) : option string :=
  map_cell (dict_of_field f) code.

(** ** Loading (lines 84-91)

    [pd.read_csv] is the environment: it yields a frame, raises
    [UnicodeDecodeError], or raises something else (which [load_data] does
    not catch).  [read_lenient] is the last call, with
    [encoding_errors="ignore"]. *)

Inductive read_outcome : Type :=
  | Loaded (df : DataFrame)
  | UnicodeDecodeError
  | OtherError.

Definition encodings : list string :=
  [ "cp949"; "euc-kr"; "utf-8-sig"; "utf-8"; "ISO-8859-1" ]%string.

(** The [for enc in encodings] loop; [None] when it runs to its end. *)
Fixpoint try_encodings (read_csv : string -> read_outcome) (encs : list string)
    : option read_outcome :=
  match encs with
  | [] => None
  | enc :: rest =>
      match read_csv enc with
      | UnicodeDecodeError => try_encodings read_csv rest
      | outcome => Some outcome
      end
  end.

Definition load_data (read_csv : string -> read_outcome) (read_lenient : read_outcome)
    : read_outcome :=
  match try_encodings read_csv encodings with
  | Some outcome => outcome
  | None => read_lenient
  end.

(** ** The pipeline, over pandas' text parser *)

Section Pipeline.

Variable parse_text : string -> option Q.

(** [pd.to_numeric(_, errors="coerce")] on one cell. *)
Definition to_numeric (c : raw) : option Q :=
  match c with
  | RNum q => Some q
  | RNaN => None
  | RStr s => parse_text s
  end.

(** Lines 116-118.  With [dropna] the missing values are removed and the
    rest are plain ints, kept here under [Some].  The cast is cell by cell
    and exact: it is pandas' cast on columns of [float_exact] cells. *)
Definition to_int_series (s : list raw) (dropna_flag : bool) : result (list (option Z)) :=
  x ← astype_Int64 (map to_numeric s);
  Ok (if dropna_flag then List.filter is_some x else x).

(** Lines 156-157. *)
Definition filter_year (sp : filter_spec) (df : list row) : result (list row) :=
  match selected_year sp with
  | None => Ok df
  | Some y =>
      codes ← to_int_series (map year df) false;
      Ok (getitem_mask df (na_as_false (series_eq codes y)))
  end.

(** Lines 159-161: the step runs only for a non-empty selection. *)
Definition filter_regions (sp : filter_spec) (df : list row) : result (list row) :=
  match selected_regions_name sp with
  | [] => Ok df
  | names =>
      let selected_codes := omap (fun n => REGION_MAP_REV !! n) names in
      codes ← to_int_series (map region_code df) false;
      Ok (getitem_mask df (isin codes selected_codes))
  end.

(** Lines 163-165. *)
Definition filter_genders (sp : filter_spec) (df : list row) : result (list row) :=
  match selected_genders sp with
  | [] => Ok df
  | genders =>
      codes ← to_int_series (map gender_code df) false;
      wanted ← mapM (getitem rev_gender) genders;
      Ok (getitem_mask df (isin codes wanted))
  end.

(** Lines 167-168. *)
Definition filter_months (sp : filter_spec) (df : list row) : result (list row) :=
  match selected_months sp with
  | [] => Ok df
  | months =>
      codes ← to_int_series (map birth_month df) false;
      Ok (getitem_mask df (isin codes months))
  end.

(** Lines 170-172. *)
Definition filter_multiple (sp : filter_spec) (df : list row) : result (list row) :=
  if String.eqb (selected_multiple sp) ALL then Ok df
  else
    codes ← to_int_series (map multi_type_code df) false;
    v ← getitem rev_multiple (selected_multiple sp);
    Ok (getitem_mask df (na_as_false (series_eq codes v))).

(** Lines 174-176. *)
Definition filter_marital (sp : filter_spec) (df : list row) : result (list row) :=
  if String.eqb (selected_marital sp) ALL then Ok df
  else
    codes ← to_int_series (map marital_code df) false;
    v ← getitem rev_marital (selected_marital sp);
    Ok (getitem_mask df (na_as_false (series_eq codes v))).

(** Lines 179-180: the weight column is overwritten by its numeric form,
    then the rows inside the closed range are kept. *)
Definition filter_weight (sp : filter_spec) (df : list row) : list row :=
  let df1 := zip_with set_weight df (map (fun r => of_numeric (to_numeric (weight r))) df) in
  getitem_mask df1
    (between (map (fun r => as_float (weight r)) df1) (selected_wt sp).1 (selected_wt sp).2).

(** Lines 183-184. *)
Definition filter_na (sp : filter_spec) (df : list row) : list row :=
  if exclude_na sp then
    List.filter (fun r => negb (isna (year r) || isna (region_code r) || isna (gender_code r)
                                || isna (birth_month r) || isna (weight r))) df
  else df.

(** Lines 187-189. *)
Definition filter_cohab (present : bool) (df : list row) : list row :=
  if present then
    let df1 := zip_with set_cohab df (map (fun r => of_numeric (to_numeric (cohab r))) df) in
    getitem_mask df1 (series_ne (map (fun r => as_float (cohab r)) df1) 999%Q)
  else df.

(** Lines 154-189: the filtered frame [_df]. *)
Definition apply_filter (sp : filter_spec) (df : DataFrame) : result DataFrame :=
  d ← filter_year sp (rows df);
  d ← filter_regions sp d;
  d ← filter_genders sp d;
  d ← filter_months sp d;
  d ← filter_multiple sp d;
  d ← filter_marital sp d;
  Ok (Frame (has_cohab df)
        (filter_cohab (has_cohab df) (filter_na sp (filter_weight sp d)))).

(** Lines 192-204, one label column. *)
Definition label_column (f : field) (df : list row) : result (list (option string)) :=
  codes ← to_int_series (map (code_column f) df) false;
  Ok (series_map (dict_of_field f) codes).

(** *** Aggregates *)

(** Line 222. *)
Definition total_births (df : DataFrame) : nat := length (rows df).

(** Line 223. *)
Definition avg_weight (df : DataFrame) : option Q :=
  series_mean (map (fun r => to_numeric (weight r)) (rows df)).

(** Line 224; [None] is NaN. *)
Definition multiple_ratio (df : DataFrame) : option Q :=
  (fun m => m * 100)%Q <$>
    bool_mean (map (fun q => 1 <? astype_int q)
                 (fillna 1 (map (fun r => to_numeric (multi_type_code r)) (rows df)))).

(** Lines 225-226. *)
Definition marital_ratio (df : DataFrame) : option Q :=
  (fun m => m * 100)%Q <$>
    bool_mean (map (fun x => match x with Some q => Qeq_bool q 2 | None => false end)
                 (map (fun r => to_numeric (marital_code r)) (rows df))).

(** Lines 344-346: the series whose mean is shown, and the mean.  The outer
    [None] is the "데이터 없음" branch. *)
Definition cohab_values (df : DataFrame) : list Q :=
  dropna (replace_with_na 999 (map (fun r => to_numeric (cohab r)) (rows df))).

Definition cohab_mean (df : DataFrame) : option (option Q) :=
  if has_cohab df then Some (series_mean (map Some (cohab_values df))) else None.

(** *** Stages

    Every step of the filter has the same shape: check the column, rewrite
    the rows, keep the rows that pass.  The proofs go through this shape. *)

Record stage : Type := Stage {
  ok : row -> bool;       (* the cell can be cast *)
  upd : row -> row;       (* the column assignment *)
  keep : row -> bool      (* the mask *)
}.

Definition run_stage (s : stage) (df : list row) : result (list row) :=
  if forallb (ok s) df then Ok (List.filter (keep s) (map (upd s) df))
  else Raise TypeError.

Fixpoint run (steps : list (list row -> result (list row))) (df : list row)
    : result (list row) :=
  match steps with
  | [] => Ok df
  | f :: steps' => d ← f df; run steps' d
  end.

(** The code of a cell when the cast succeeds. *)
Definition int_code (c : raw) : option Z :=
  match astype_Int64_cell (to_numeric c) with
  | Ok z => z
  | Raise _ => None
  end.

Definition castable (c : raw) : bool :=
  match astype_Int64_cell (to_numeric c) with
  | Ok _ => true
  | Raise _ => false
  end.

Definition code_eq (v : Z) (c : raw) : bool :=
  match int_code c with
  | Some z => z =? v
  | None => false
  end.

Definition code_in (vs : list Z) (c : raw) : bool :=
  match int_code c with
  | Some z => existsb (Z.eqb z) vs
  | None => false
  end.

Definition in_range (lo hi : Q) (c : raw) : bool :=
  match to_numeric c with
  | Some q => Qle_bool lo q && Qle_bool q hi
  | None => false
  end.

Definition is_sentinel (c : raw) : bool :=
  match to_numeric c with
  | Some q => Qeq_bool q 999
  | None => false
  end.

Definition coerce_weight (r : row) : row := set_weight r (of_numeric (to_numeric (weight r))).
Definition coerce_cohab (r : row) : row := set_cohab r (of_numeric (to_numeric (cohab r))).

Definition idle : stage := Stage (fun _ => true) (fun r => r) (fun _ => true).

Definition select (col : row -> raw) (p : raw -> bool) : stage :=
  Stage (fun r => castable (col r)) (fun r => r) (fun r => p (col r)).

Definition stage_year (sp : filter_spec) : stage :=
  match selected_year sp with
  | None => idle
  | Some y => select year (code_eq y)
  end.

Definition stage_regions (sp : filter_spec) : stage :=
  match selected_regions_name sp with
  | [] => idle
  | names => select region_code (code_in (omap (fun n => REGION_MAP_REV !! n) names))
  end.

Definition stage_genders (sp : filter_spec) : stage :=
  match selected_genders sp with
  | [] => idle
  | genders => select gender_code (code_in (omap (fun g => rev_gender !! g) genders))
  end.

Definition stage_months (sp : filter_spec) : stage :=
  match selected_months sp with
  | [] => idle
  | months => select birth_month (code_in months)
  end.

Definition stage_multiple (sp : filter_spec) : stage :=
  if String.eqb (selected_multiple sp) ALL then idle
  else match rev_multiple !! selected_multiple sp with
       | Some v => select multi_type_code (code_eq v)
       | None => idle
       end.

Definition stage_marital (sp : filter_spec) : stage :=
  if String.eqb (selected_marital sp) ALL then idle
  else match rev_marital !! selected_marital sp with
       | Some v => select marital_code (code_eq v)
       | None => idle
       end.

Definition stage_weight (sp : filter_spec) : stage :=
  Stage (fun _ => true) coerce_weight
        (fun r => in_range (selected_wt sp).1 (selected_wt sp).2 (weight r)).

Definition stage_na (sp : filter_spec) : stage :=
  Stage (fun _ => true) (fun r => r)
        (fun r => if exclude_na sp then
                    negb (isna (year r) || isna (region_code r) || isna (gender_code r)
                          || isna (birth_month r) || isna (weight r))
                  else true).

Definition stage_cohab (present : bool) : stage :=
  if present then Stage (fun _ => true) coerce_cohab (fun r => negb (is_sentinel (cohab r)))
  else idle.

Definition stages (sp : filter_spec) (present : bool) : list stage :=
  [ stage_year sp; stage_regions sp; stage_genders sp; stage_months sp;
    stage_multiple sp; stage_marital sp; stage_weight sp; stage_na sp;
    stage_cohab present ].

Definition steps (sp : filter_spec) (present : bool)
    : list (list row -> result (list row)) :=
  [ filter_year sp; filter_regions sp; filter_genders sp; filter_months sp;
    filter_multiple sp; filter_marital sp;
    (fun d => Ok (filter_weight sp d)); (fun d => Ok (filter_na sp d));
    (fun d => Ok (filter_cohab present d)) ].

(** All the column assignments of a stage list, in order. *)
Definition upd_all (ss : list stage) (r : row) : row :=
  foldl (fun r s => upd s r) r ss.

(** A step implements a stage when it is that stage on every frame; a step
    whose selection cannot be resolved raises on every frame. *)
Definition always_raises (f : list row -> result (list row)) : Prop :=
  forall df, exists e, f df = Raise e.

Definition implements (f : list row -> result (list row)) (s : stage) : Prop :=
  (forall df, f df = run_stage s df) \/ always_raises f.

Definition run_stages (ss : list stage) : list row -> result (list row) :=
  run (map run_stage ss).

(** A row a stage leaves alone: it passes the check and the mask and the
    column assignment does not change it. *)
Definition settled (s : stage) (r : row) : Prop :=
  ok s r = true /\ keep s r = true /\ upd s r = r.

(** Each stage settles the rows it keeps, and the later stages do not
    unsettle them. *)
Fixpoint coherent (ss : list stage) : Prop :=
  match ss with
  | [] => True
  | s :: ss' =>
      (forall r, ok s r = true -> keep s (upd s r) = true -> settled s (upd s r))
      /\ Forall (fun k => forall r, settled s r -> settled s (upd k r)) ss'
      /\ coherent ss'
  end.

(** The filter with the region step left out. *)
Definition apply_filter_no_region (sp : filter_spec) (df : DataFrame) : result DataFrame :=
  d ← filter_year sp (rows df);
  d ← filter_genders sp d;
  d ← filter_months sp d;
  d ← filter_multiple sp d;
  d ← filter_marital sp d;
  Ok (Frame (has_cohab df)
        (filter_cohab (has_cohab df) (filter_na sp (filter_weight sp d)))).

(** *** The predicate the filter computes

    The mask of every stage, read on the row as the earlier stages left it. *)
Fixpoint keeps_all (ss : list stage) (r : row) : bool :=
  match ss with
  | [] => true
  | s :: ss' => keep s (upd s r) && keeps_all ss' (upd s r)
  end.

(** The conjunction of the active conditions of lines 156-189, on a row of
    the unfiltered frame. *)
Definition passes (sp : filter_spec) (present : bool) (r : row) : bool :=
  match selected_year sp with
  | None => true
  | Some y => code_eq y (year r)
  end
  && match selected_regions_name sp with
     | [] => true
     | names => code_in (omap (fun n => REGION_MAP_REV !! n) names) (region_code r)
     end
  && match selected_genders sp with
     | [] => true
     | genders => code_in (omap (fun g => rev_gender !! g) genders) (gender_code r)
     end
  && match selected_months sp with
     | [] => true
     | months => code_in months (birth_month r)
     end
  && (if String.eqb (selected_multiple sp) ALL then true
      else match rev_multiple !! selected_multiple sp with
           | Some v => code_eq v (multi_type_code r)
           | None => false
           end)
  && (if String.eqb (selected_marital sp) ALL then true
      else match rev_marital !! selected_marital sp with
           | Some v => code_eq v (marital_code r)
           | None => false
           end)
  && in_range (selected_wt sp).1 (selected_wt sp).2 (weight r)
  && (if exclude_na sp then
        negb (isna (year r) || isna (region_code r) || isna (gender_code r)
              || isna (birth_month r))
      else true)
  && (if present then negb (is_sentinel (cohab r)) else true).

(** The column assignments of the filter on one row. *)
Definition normalise (present : bool) (r : row) : row :=
  if present then coerce_cohab (coerce_weight r) else coerce_weight r.

(** A row whose six code cells can all be cast. *)
Definition clean (r : row) : bool :=
  castable (year r) && castable (region_code r) && castable (gender_code r)
  && castable (birth_month r) && castable (multi_type_code r)
  && castable (marital_code r).

(** A cell that float64 holds exactly when it is an integer: missing, or a
    number of magnitude at most 2^53. *)
Definition float_exact (c : raw) : bool :=
  match to_numeric c with
  | Some q => Qle_bool (inject_Z (- 2 ^ 53)) q && Qle_bool q (inject_Z (2 ^ 53))
  | None => true
  end.

(** A row whose six code cells are all [float_exact]. *)
Definition small_codes (r : row) : bool :=
  float_exact (year r) && float_exact (region_code r) && float_exact (gender_code r)
  && float_exact (birth_month r) && float_exact (multi_type_code r)
  && float_exact (marital_code r).

(** The labels of a specification are the widgets' own options. *)
Definition labels_known (sp : filter_spec) : bool :=
  forallb (fun g => is_some (rev_gender !! g)) (selected_genders sp)
  && (String.eqb (selected_multiple sp) ALL || is_some (rev_multiple !! selected_multiple sp))
  && (String.eqb (selected_marital sp) ALL || is_some (rev_marital !! selected_marital sp)).

(** *** The options offered by the widgets (lines 121-124) *)

(** [.unique()]: the values in order of first appearance. *)
Fixpoint unique_from (seen : list Z) (l : list Z) : list Z :=
  match l with
  | [] => []
  | x :: l' =>
      if existsb (Z.eqb x) seen then unique_from seen l'
      else x :: unique_from (x :: seen) l'
  end.

Definition unique (l : list Z) : list Z := unique_from [] l.

(** [sorted(to_int_series(col).unique().tolist())] *)
Definition sorted_codes (col : list raw) : result (list Z) :=
  x ← to_int_series col true;
  Ok (merge_sort Z.le (unique (dropna x))).

Definition years (df : list row) : result (list Z) := sorted_codes (map year df).

Definition present_codes (df : list row) : result (list Z) :=
  sorted_codes (map region_code df).

(** [[REGION_MAP[c] for c in present_codes if c in REGION_MAP]] *)
Definition present_names (df : list row) : result (list string) :=
  codes ← present_codes df;
  mapM (getitem REGION_MAP) (List.filter (fun c => is_some (REGION_MAP !! c)) codes).

End Pipeline.

(** ** Sample data *)

Definition all_region_names : list string := map snd REGION_MAP_items.

(** The widget defaults: everything selected, no year / multiplicity /
    marital restriction, missing values excluded. *)
Definition default_spec (lo hi : Q) : filter_spec :=
  Spec None all_region_names ["남"; "여"]%string
       [1; 2; 3; 4; 5; 6; 7; 8; 9; 10; 11; 12] ALL ALL (lo, hi) true.

Definition with_regions (names : list string) (sp : filter_spec) : filter_spec :=
  Spec (selected_year sp) names (selected_genders sp) (selected_months sp)
       (selected_multiple sp) (selected_marital sp) (selected_wt sp) (exclude_na sp).

(** A clean record: 2023, Seoul, boy, January, singleton, in wedlock. *)
Definition sample_row (i : nat) (region w cohabitation : raw) : row :=
  Row i (RNum 2023) region (RNum 1) (RNum 1) (RNum 1) (RNum 1) w cohabitation
      (RNum 5) (RNum 5) (RNum 1) (RNum 1) (RNum 1) (RNum 1).

Definition one_row_frame : DataFrame :=
  Frame true [ sample_row 0 (RNum 11) (RNum 3.2) (RNum 5) ].

Definition weights_frame : DataFrame :=
  Frame false [ sample_row 0 (RNum 11) (RNum 2.5) RNaN;
                sample_row 1 (RNum 11) (RNum 3.1) RNaN;
                sample_row 2 (RNum 21) (RNum 4.2) RNaN ].

Definition cohab_frame : DataFrame :=
  Frame true [ sample_row 0 (RNum 11) (RNum 3.2) (RNum 999);
               sample_row 1 (RNum 21) (RStr "3.4") (RNum 5) ].




Definition with_exclude_na (b : bool) (sp : filter_spec) : filter_spec :=
  Spec (selected_year sp) (selected_regions_name sp) (selected_genders sp)
       (selected_months sp) (selected_multiple sp) (selected_marital sp)
       (selected_wt sp) b.

Definition with_marital (label : string) (sp : filter_spec) : filter_spec :=
  Spec (selected_year sp) (selected_regions_name sp) (selected_genders sp)
       (selected_months sp) (selected_multiple sp) label
       (selected_wt sp) (exclude_na sp).

Definition with_year (y : option Z) (sp : filter_spec) : filter_spec :=
  Spec y (selected_regions_name sp) (selected_genders sp)
       (selected_months sp) (selected_multiple sp) (selected_marital sp)
       (selected_wt sp) (exclude_na sp).

(** A girl born in Seoul in March, out of wedlock. *)
Definition second_row : row :=
  Row 1 (RNum 2023) (RNum 11) (RNum 2) (RNum 3) (RNum 1) (RNum 2) (RNum 2.9) RNaN
      (RNum 5) (RNum 4) (RNum 1) (RNum 1) (RNum 1) (RNum 1).

(** Three births: Seoul, Seoul, Busan; boy, girl, boy. *)
Definition regions_frame : DataFrame :=
  Frame false [ sample_row 0 (RNum 11) (RNum 3.2) RNaN;
                second_row;
                sample_row 2 (RStr "21") (RNum 3.6) RNaN ].

(** A reader for which the first two encodings fail. *)
Definition sample_reader (enc : string) : read_outcome :=
  if String.eqb enc "utf-8-sig" then Loaded one_row_frame
  else if String.eqb enc "utf-8" then Loaded weights_frame
  else if String.eqb enc "ISO-8859-1" then Loaded cohab_frame
  else UnicodeDecodeError.

(** Two rows of codes for the label columns: mapped codes, then a negative
    code, unlisted positive codes, missing cells and the "unknown" codes. *)
Definition codes_rows : list row :=
  [ Row 0 (RNum 2023) (RNum 11) (RNum 1) (RNum 1) (RNum 2) (RNum 1) (RNum 3.2) RNaN
        (RNum 5) (RNum 99) (RNum 1) (RNum 8) (RNum 1) (RNum 3);
    Row 1 (RNum 2023) (RNum (-11)) (RNum 2) (RNum 1) (RNum 9) (RNum 2) (RNum 3.0) RNaN
        (RNum 10) RNaN (RNum 5) (RNum 0) RNaN (RNum 9) ].

Definition all_fields : list field :=
  [ FRegion; FFatherAge; FMotherAge; FMultiOrder; FMultiType;
    FMotherTotalChild; FFatherNat; FMotherNat ].

(** A year column with a missing cell and a text cell. *)
Definition years_rows : list row :=
  [ sample_row 0 (RNum 11) (RNum 3.2) RNaN;
    Row 1 (RStr "2021") (RNum 21) (RNum 2) (RNum 3) (RNum 1) (RNum 2) (RNum 2.9) RNaN
        (RNum 5) (RNum 4) (RNum 1) (RNum 1) (RNum 1) (RNum 1);
    Row 2 RNaN (RNum 40) (RNum 1) (RNum 1) (RNum 1) (RNum 1) (RNum 3.3) RNaN
        (RNum 5) (RNum 5) (RNum 1) (RNum 1) (RNum 1) (RNum 1);
    sample_row 3 (RNum 11) (RNum 3.1) RNaN ].
(** ** The result monad and the series primitives *)

Section Proofs.

Variable parse_text : string -> option Q.

Ltac rbind := cbn [mbind result_bind mret result_ret fmap result_fmap].
Tactic Notation "rbind_in" hyp(H) :=
  cbn [mbind result_bind mret result_ret fmap result_fmap] in H.

Lemma astype_Int64_spec (s : list (option Q)) :
  astype_Int64 s =
    if forallb (fun x => match astype_Int64_cell x with Ok _ => true | Raise _ => false end) s
    then Ok (map (fun x => match astype_Int64_cell x with Ok z => z | Raise _ => None end) s)
    else Raise TypeError.
Proof.
  unfold astype_Int64.
  induction s as [|x s IH]; [reflexivity|].
  cbn [mapM forallb map]. rewrite IH.
  unfold astype_Int64_cell at 1 3 4.
  destruct x as [q|]; cbn.
  - destruct (Qeq_bool _ q && _ && _); cbn; [|reflexivity].
    destruct (forallb _ s); reflexivity.
  - destruct (forallb _ s); reflexivity.
Qed.

Lemma to_int_series_spec (s : list raw) :
  to_int_series parse_text s false =
    if forallb (castable parse_text) s then Ok (map (int_code parse_text) s)
    else Raise TypeError.
Proof.
  unfold to_int_series. rewrite astype_Int64_spec.
  replace (forallb _ (map (to_numeric parse_text) s))
    with (forallb (castable parse_text) s)
    by (induction s as [|c s IH]; cbn; [reflexivity | by rewrite IH]).
  rewrite map_map.
  destruct (forallb _ s); reflexivity.
Qed.

Lemma getitem_mask_map {A} (p : A -> bool) (df : list A) :
  getitem_mask df (map p df) = List.filter p df.
Proof.
  unfold getitem_mask.
  induction df as [|r df IH]; [reflexivity|].
  cbn. destruct (p r); cbn; rewrite IH; reflexivity.
Qed.

Lemma zip_with_map {A B C} (g : A -> B -> C) (f : A -> B) (l : list A) :
  zip_with g l (map f l) = map (fun a => g a (f a)) l.
Proof. induction l as [|a l IH]; cbn; [reflexivity | by rewrite IH]. Qed.

Lemma forallb_compose {A B} (p : B -> bool) (f : A -> B) (l : list A) :
  forallb p (map f l) = forallb (fun a => p (f a)) l.
Proof. induction l as [|a l IH]; cbn; [reflexivity | by rewrite IH]. Qed.

Lemma filter_all {A} (l : list A) : List.filter (fun _ => true) l = l.
Proof. induction l as [|a l IH]; cbn; [reflexivity | by rewrite IH]. Qed.

Lemma forallb_all {A} (l : list A) : forallb (fun _ => true) l = true.
Proof. induction l as [|a l IH]; cbn; [reflexivity | exact IH]. Qed.

Lemma mask_eq_spec {A} (g : A -> option Z) (y : Z) (l : list A) :
  na_as_false (series_eq (map g l) y) =
    map (fun a => match g a with Some z => z =? y | None => false end) l.
Proof.
  unfold na_as_false, series_eq. rewrite !map_map.
  apply map_ext. intros a. destruct (g a) as [z|]; [destruct (z =? y)|]; reflexivity.
Qed.

Lemma mask_isin_spec {A} (g : A -> option Z) (vs : list Z) (l : list A) :
  isin (map g l) vs =
    map (fun a => match g a with Some z => existsb (Z.eqb z) vs | None => false end) l.
Proof. unfold isin. by rewrite map_map. Qed.

Lemma mapM_getitem {K V} `{Countable K} (d : gmap K V) (ks : list K) :
  mapM (getitem d) ks = Ok (omap (fun k => d !! k) ks)
  \/ mapM (getitem d) ks = Raise KeyError.
Proof.
  induction ks as [|k ks IH]; [by left|].
  cbn [mapM omap list_omap].
  assert (getitem d k = match d !! k with Some v => Ok v | None => Raise KeyError end)
    as -> by reflexivity.
  destruct (d !! k) as [v|]; [|by right].
  destruct IH as [-> | ->]; [by left | by right].
Qed.

(** ** Every step of the filter is a stage *)

Lemma run_stage_idle (df : list row) : run_stage idle df = Ok df.
Proof.
  unfold run_stage, idle. cbn.
  by rewrite forallb_all, filter_all, map_id.
Qed.

Lemma run_stage_select (col : row -> raw) (p : raw -> bool) (df : list row) :
  run_stage (select parse_text col p) df =
    if forallb (castable parse_text) (map col df)
    then Ok (List.filter (fun r => p (col r)) df)
    else Raise TypeError.
Proof. unfold run_stage, select. cbn. by rewrite forallb_compose, map_id. Qed.

Lemma filter_year_stage (sp : filter_spec) :
  implements (filter_year parse_text sp) (stage_year parse_text sp).
Proof.
  left. intros df. unfold filter_year, stage_year.
  destruct (selected_year sp) as [y|]; [|by rewrite run_stage_idle].
  rewrite run_stage_select, to_int_series_spec.
  destruct (forallb _ _); cbn; [|reflexivity].
  by rewrite map_map, mask_eq_spec, getitem_mask_map.
Qed.

Lemma filter_regions_stage (sp : filter_spec) :
  implements (filter_regions parse_text sp) (stage_regions parse_text sp).
Proof.
  left. intros df. unfold filter_regions, stage_regions.
  destruct (selected_regions_name sp) as [|n names]; [by rewrite run_stage_idle|].
  rewrite run_stage_select, to_int_series_spec.
  destruct (forallb _ _); cbn; [|reflexivity].
  by rewrite map_map, mask_isin_spec, getitem_mask_map.
Qed.

Lemma filter_genders_stage (sp : filter_spec) :
  implements (filter_genders parse_text sp) (stage_genders parse_text sp).
Proof.
  unfold implements, always_raises, filter_genders, stage_genders.
  destruct (selected_genders sp) as [|g genders];
    [left; intros df; by rewrite run_stage_idle|].
  destruct (mapM_getitem rev_gender (g :: genders)) as [E | E].
  - left. intros df. rewrite run_stage_select, to_int_series_spec.
    destruct (forallb _ _); rbind; [|reflexivity].
    rewrite E. rbind.
    by rewrite map_map, mask_isin_spec, getitem_mask_map.
  - right. intros df. rewrite to_int_series_spec.
    destruct (forallb _ _); rbind; [|by eexists].
    rewrite E. by eexists.
Qed.

Lemma filter_months_stage (sp : filter_spec) :
  implements (filter_months parse_text sp) (stage_months parse_text sp).
Proof.
  left. intros df. unfold filter_months, stage_months.
  destruct (selected_months sp) as [|m months]; [by rewrite run_stage_idle|].
  rewrite run_stage_select, to_int_series_spec.
  destruct (forallb _ _); cbn; [|reflexivity].
  by rewrite map_map, mask_isin_spec, getitem_mask_map.
Qed.

Lemma filter_multiple_stage (sp : filter_spec) :
  implements (filter_multiple parse_text sp) (stage_multiple parse_text sp).
Proof.
  unfold implements, always_raises, filter_multiple, stage_multiple.
  destruct (String.eqb (selected_multiple sp) ALL);
    [left; intros df; by rewrite run_stage_idle|].
  unfold getitem. destruct (rev_multiple !! selected_multiple sp) as [v|].
  - left. intros df. rewrite run_stage_select, to_int_series_spec.
    destruct (forallb _ _); cbn; [|reflexivity].
    by rewrite map_map, mask_eq_spec, getitem_mask_map.
  - right. intros df. rewrite to_int_series_spec.
    destruct (forallb _ _); cbn; by eexists.
Qed.

Lemma filter_marital_stage (sp : filter_spec) :
  implements (filter_marital parse_text sp) (stage_marital parse_text sp).
Proof.
  unfold implements, always_raises, filter_marital, stage_marital.
  destruct (String.eqb (selected_marital sp) ALL);
    [left; intros df; by rewrite run_stage_idle|].
  unfold getitem. destruct (rev_marital !! selected_marital sp) as [v|].
  - left. intros df. rewrite run_stage_select, to_int_series_spec.
    destruct (forallb _ _); cbn; [|reflexivity].
    by rewrite map_map, mask_eq_spec, getitem_mask_map.
  - right. intros df. rewrite to_int_series_spec.
    destruct (forallb _ _); cbn; by eexists.
Qed.

Lemma as_float_of_numeric (x : option Q) : as_float (of_numeric x) = x.
Proof. by destruct x. Qed.

Lemma to_numeric_of_numeric (x : option Q) :
  to_numeric parse_text (of_numeric x) = x.
Proof. by destruct x. Qed.

Lemma filter_weight_stage (sp : filter_spec) (df : list row) :
  Ok (filter_weight parse_text sp df) = run_stage (stage_weight parse_text sp) df.
Proof.
  unfold filter_weight, run_stage, stage_weight. cbn [ok upd keep].
  rewrite forallb_all, zip_with_map.
  change (fun a => set_weight a (of_numeric (to_numeric parse_text (weight a))))
    with (coerce_weight parse_text).
  f_equal. rewrite <- getitem_mask_map. f_equal.
  unfold between. rewrite !map_map. apply map_ext. intros r.
  unfold in_range, coerce_weight, set_weight. cbn [weight].
  by rewrite as_float_of_numeric, to_numeric_of_numeric.
Qed.

Lemma filter_na_stage (sp : filter_spec) (df : list row) :
  Ok (filter_na sp df) = run_stage (stage_na sp) df.
Proof.
  unfold filter_na, run_stage, stage_na. cbn [ok upd keep].
  rewrite forallb_all, map_id.
  destruct (exclude_na sp); [reflexivity | by rewrite filter_all].
Qed.

Lemma filter_cohab_stage (present : bool) (df : list row) :
  Ok (filter_cohab parse_text present df) = run_stage (stage_cohab parse_text present) df.
Proof.
  unfold filter_cohab, stage_cohab.
  destruct present; [|by rewrite run_stage_idle].
  unfold run_stage. cbn [ok upd keep].
  rewrite forallb_all, zip_with_map.
  change (fun a => set_cohab a (of_numeric (to_numeric parse_text (cohab a))))
    with (coerce_cohab parse_text).
  f_equal. rewrite <- getitem_mask_map. f_equal.
  unfold series_ne. rewrite !map_map. apply map_ext. intros r.
  unfold is_sentinel, coerce_cohab, set_cohab. cbn [cohab].
  rewrite as_float_of_numeric, to_numeric_of_numeric.
  by destruct (to_numeric parse_text (cohab r)).
Qed.

Lemma steps_implement (sp : filter_spec) (present : bool) :
  Forall2 implements (steps parse_text sp present) (stages parse_text sp present).
Proof.
  unfold steps, stages.
  constructor; [exact (filter_year_stage sp)|].
  constructor; [exact (filter_regions_stage sp)|].
  constructor; [exact (filter_genders_stage sp)|].
  constructor; [exact (filter_months_stage sp)|].
  constructor; [exact (filter_multiple_stage sp)|].
  constructor; [exact (filter_marital_stage sp)|].
  constructor; [left; exact (filter_weight_stage sp)|].
  constructor; [left; exact (filter_na_stage sp)|].
  constructor; [left; exact (filter_cohab_stage present)|].
  constructor.
Qed.

Lemma apply_filter_run (sp : filter_spec) (df : DataFrame) :
  apply_filter parse_text sp df =
    Frame (has_cohab df) <$> run (steps parse_text sp (has_cohab df)) (rows df).
Proof.
  unfold apply_filter, steps, run.
  destruct (filter_year _ _ _) as [d1|]; rbind; [|reflexivity].
  destruct (filter_regions _ _ _) as [d2|]; rbind; [|reflexivity].
  destruct (filter_genders _ _ _) as [d3|]; rbind; [|reflexivity].
  destruct (filter_months _ _ _) as [d4|]; rbind; [|reflexivity].
  destruct (filter_multiple _ _ _) as [d5|]; rbind; [|reflexivity].
  destruct (filter_marital _ _ _) as [d6|]; rbind; reflexivity.
Qed.

(** ** Pipelines of stages *)

Lemma run_stages_cons (s : stage) (ss : list stage) (df : list row) :
  run_stages (s :: ss) df = run_stage s df ≫= run_stages ss.
Proof. reflexivity. Qed.

Lemma run_dichotomy (fs : list (list row -> result (list row))) (ss : list stage) :
  Forall2 implements fs ss ->
  (forall df, run fs df = run_stages ss df) \/ (forall df, exists e, run fs df = Raise e).
Proof.
  induction 1 as [|f s fs ss Hf _ IH]; [by left|].
  destruct Hf as [Hf | Hf].
  - destruct IH as [IH | IH].
    + left. intros df. rewrite run_stages_cons. cbn [run]. rewrite Hf.
      destruct (run_stage s df); rbind; [apply IH | reflexivity].
    + right. intros df. cbn [run].
      destruct (f df) as [d|e]; rbind; [apply IH | by exists e].
  - right. intros df. cbn [run].
    destruct (Hf df) as [e ->]. by exists e.
Qed.

Lemma run_stage_ok (s : stage) (df out : list row) :
  run_stage s df = Ok out ->
  forallb (ok s) df = true /\ out = List.filter (keep s) (map (upd s) df).
Proof.
  unfold run_stage. destruct (forallb (ok s) df); [|discriminate].
  intros [= <-]. by split.
Qed.

Lemma sublist_List_filter {A} (p : A -> bool) (l : list A) :
  sublist (List.filter p l) l.
Proof.
  induction l as [|a l IH]; cbn; [constructor|].
  destruct (p a); by constructor.
Qed.

Lemma sublist_of_map {A B} (f : A -> B) (l : list A) (k : list B) :
  sublist k (map f l) -> exists l', sublist l' l /\ k = map f l'.
Proof.
  revert k. induction l as [|a l IH]; intros k Hk; cbn in Hk.
  - inversion Hk; subst. exists []. split; [constructor | reflexivity].
  - inversion Hk as [|x k1 l2 Hk1|x k1 l2 Hk1]; subst.
    + destruct (IH _ Hk1) as (l' & Hl' & ->).
      exists (a :: l'). split; [by constructor | reflexivity].
    + destruct (IH _ Hk1) as (l' & Hl' & ->).
      exists l'. split; [by constructor | reflexivity].
Qed.

Lemma upd_all_cons (s : stage) (ss : list stage) (r : row) :
  upd_all (s :: ss) r = upd_all ss (upd s r).
Proof. reflexivity. Qed.

(** The rows a pipeline returns are rows of its input, in the input's
    order, after the column assignments. *)
Lemma run_stages_sublist (ss : list stage) (df out : list row) :
  run_stages ss df = Ok out ->
  exists l, sublist l df /\ out = map (upd_all ss) l.
Proof.
  revert df. induction ss as [|s ss IH]; intros df.
  - intros [= <-]. exists df. split; [reflexivity | by rewrite map_id].
  - rewrite run_stages_cons.
    destruct (run_stage s df) as [d|] eqn:E; rbind; [|discriminate].
    intros Hrun. apply run_stage_ok in E as [_ ->].
    destruct (IH _ Hrun) as (l1 & Hl1 & ->).
    destruct (sublist_of_map (upd s) df l1) as (l & Hl & ->).
    { etrans; [exact Hl1 | apply sublist_List_filter]. }
    exists l. split; [exact Hl|].
    rewrite map_map. apply map_ext. intros r. by rewrite upd_all_cons.
Qed.

(** A property of rows that the column assignments respect survives a
    pipeline. *)
Lemma run_stages_preserves (Q : row -> Prop) (ss : list stage) (df out : list row) :
  Forall (fun k => forall r, Q r -> Q (upd k r)) ss ->
  Forall Q df ->
  run_stages ss df = Ok out ->
  Forall Q out.
Proof.
  revert df. induction ss as [|s ss IH]; intros df Hss Hdf.
  - by intros [= <-].
  - rewrite run_stages_cons.
    destruct (run_stage s df) as [d|] eqn:E; rbind; [|discriminate].
    apply run_stage_ok in E as [_ ->].
    inversion Hss as [|? ? Hs Hss']; subst.
    apply IH; [exact Hss'|].
    rewrite List.Forall_forall in *. intros r Hr.
    apply filter_In in Hr as [Hr _]. apply in_map_iff in Hr as (r0 & <- & Hr0).
    auto.
Qed.


Lemma run_stage_settles (s : stage) (df out : list row) :
  (forall r, ok s r = true -> keep s (upd s r) = true -> settled s (upd s r)) ->
  run_stage s df = Ok out ->
  Forall (settled s) out.
Proof.
  intros Hs E. apply run_stage_ok in E as [Hok ->].
  rewrite List.Forall_forall. intros r Hr.
  apply filter_In in Hr as [Hr Hk]. apply in_map_iff in Hr as (r0 & <- & Hr0).
  apply Hs; [|exact Hk].
  rewrite forallb_forall in Hok. by apply Hok.
Qed.


(** ** The filter's own stage list *)

Ltac pick_stages sp present :=
  unfold stage_year, stage_regions, stage_genders, stage_months, stage_multiple,
         stage_marital, stage_weight, stage_na, stage_cohab;
  repeat match goal with
    | |- context [selected_year sp] => destruct (selected_year sp)
    | |- context [selected_regions_name sp] => destruct (selected_regions_name sp)
    | |- context [selected_genders sp] => destruct (selected_genders sp)
    | |- context [selected_months sp] => destruct (selected_months sp)
    | |- context [String.eqb (selected_multiple sp) ALL] =>
        destruct (String.eqb (selected_multiple sp) ALL)
    | |- context [rev_multiple !! selected_multiple sp] =>
        destruct (rev_multiple !! selected_multiple sp)
    | |- context [String.eqb (selected_marital sp) ALL] =>
        destruct (String.eqb (selected_marital sp) ALL)
    | |- context [rev_marital !! selected_marital sp] =>
        destruct (rev_marital !! selected_marital sp)
    | |- context [exclude_na sp] => destruct (exclude_na sp)
    | |- context [if present then _ else _] => destruct present
    end.

Ltac settle :=
  unfold settled, select, idle, coerce_weight, coerce_cohab, set_weight, set_cohab;
  cbn [ok upd keep];
  intros r; destruct r;
  cbn [idx year region_code gender_code birth_month multi_type_code marital_code
       weight cohab father_age_code mother_age_code multi_order_code
       mother_total_child_code father_nat_code mother_nat_code];
  rewrite ?to_numeric_of_numeric;
  intuition congruence.

Lemma stages_coherent (sp : filter_spec) (present : bool) :
  coherent (stages parse_text sp present).
Proof.
  unfold stages. cbn [coherent].
  repeat match goal with
    | |- _ /\ _ => split
    | |- Forall _ (_ :: _) => apply Forall_cons; split
    | |- Forall _ [] => apply Forall_nil
    | |- True => exact I
    end;
    pick_stages sp present; settle.
Qed.

Lemma upd_all_stages (sp : filter_spec) (present : bool) (r : row) :
  upd_all (stages parse_text sp present) r =
    (if present then coerce_cohab parse_text (coerce_weight parse_text r)
     else coerce_weight parse_text r).
Proof.
  unfold upd_all, stages. cbn [foldl].
  pick_stages sp present; reflexivity.
Qed.

(** Every row a coherent pipeline returns is settled for every stage. *)
Lemma run_stages_all_settled (ss : list stage) (df out : list row) :
  coherent ss ->
  run_stages ss df = Ok out ->
  Forall (fun s => Forall (settled s) out) ss.
Proof.
  revert df. induction ss as [|s ss IH]; intros df Hc; [constructor|].
  destruct Hc as (Hself & Hlater & Hc).
  rewrite run_stages_cons.
  destruct (run_stage s df) as [d|] eqn:E; rbind; [|discriminate].
  intros Hrun. constructor; [|by eapply IH].
  eapply run_stages_preserves; [exact Hlater | | exact Hrun].
  eapply run_stage_settles; eauto.
Qed.

Lemma filter_map_swap {A B} (f : A -> B) (p : B -> bool) (l : list A) :
  List.filter p (map f l) = map f (List.filter (fun a => p (f a)) l).
Proof.
  induction l as [|a l IH]; cbn; [reflexivity|].
  destruct (p (f a)); cbn; by rewrite IH.
Qed.

Lemma sublist_map {A B} (f : A -> B) (l k : list A) :
  sublist l k -> sublist (map f l) (map f k).
Proof. induction 1; cbn; by constructor. Qed.

(** What a successful run of the filter is, in terms of its stages. *)
Lemma apply_filter_ok (sp : filter_spec) (df out : DataFrame) :
  apply_filter parse_text sp df = Ok out ->
  has_cohab out = has_cohab df
  /\ run_stages (stages parse_text sp (has_cohab df)) (rows df) = Ok (rows out)
  /\ (forall d, run (steps parse_text sp (has_cohab df)) d =
                run_stages (stages parse_text sp (has_cohab df)) d).
Proof.
  rewrite apply_filter_run. intros E.
  destruct (run_dichotomy _ _ (steps_implement sp (has_cohab df))) as [H | H].
  - rewrite H in E.
    destruct (run_stages _ _) as [d|]; cbn in E; [|discriminate].
    injection E as <-. by repeat split.
  - destruct (H (rows df)) as [e He]. rewrite He in E. discriminate.
Qed.

(** The series behind the cohabitation metric holds no sentinel. *)
Lemma cohab_values_no_sentinel (df : DataFrame) :
  Forall (fun q => ~ (q == 999)%Q) (cohab_values parse_text df).
Proof.
  unfold cohab_values, dropna, replace_with_na.
  induction (rows df) as [|r l IH]; cbn; [constructor|].
  destruct (to_numeric parse_text (cohab r)) as [q|]; cbn; [|exact IH].
  destruct (Qeq_bool q 999) eqn:Hq; cbn; [exact IH|].
  constructor; [|exact IH].
  intros Heq. apply Qeq_bool_iff in Heq. congruence.
Qed.

(** ** The claims about the filter *)

(** C1 (as amended): with an empty region selection the region step is
    skipped; it returns every frame unchanged, so the filter is the pipeline
    of the remaining steps and no row is dropped because of its region. *)
Theorem C1_empty_regions_is_no_filter (sp : filter_spec) (df : DataFrame) :
  selected_regions_name sp = [] ->
  (forall d, filter_regions parse_text sp d = Ok d)
  /\ apply_filter parse_text sp df = apply_filter_no_region parse_text sp df.
Proof.
  intros Hsel. split.
  - intros d. unfold filter_regions. by rewrite Hsel.
  - unfold apply_filter, apply_filter_no_region, filter_regions. rewrite Hsel.
    destruct (filter_year _ _ _); reflexivity.
Qed.

(** C4: whatever the filter specification (in particular whatever the
    exclude-missing toggle), when the cohabitation column is present no row
    of the filtered frame carries the sentinel 999; the series averaged for
    the cohabitation metric never contains 999; the mean of {999, 5} is 5. *)
Theorem C4_sentinel_excluded (sp : filter_spec) (df out : DataFrame) :
  apply_filter parse_text sp df = Ok out ->
  has_cohab df = true ->
  Forall (fun r => is_sentinel parse_text (cohab r) = false) (rows out)
  /\ Forall (fun q => ~ (q == 999)%Q) (cohab_values parse_text out)
  /\ cohab_mean parse_text cohab_frame = Some (Some 5%Q).
Proof.
  intros E Hc. apply apply_filter_ok in E as (_ & Hrun & _).
  rewrite Hc in Hrun. split; [|split].
  - pose proof (run_stages_all_settled _ _ _ (stages_coherent sp true) Hrun) as Hall.
    unfold stages in Hall.
    do 8 (apply Forall_cons_1 in Hall as [_ Hall]).
    apply Forall_cons_1 in Hall as [Hlast _].
    eapply Forall_impl; [exact Hlast|].
    intros r (_ & Hk & _). cbn in Hk. by apply negb_true_iff in Hk.
  - apply cohab_values_no_sentinel.
  - reflexivity.
Qed.


(** C6: the rows of the filtered frame are rows of the input, in the input's
    order: their index labels form a subsequence of the input's, and the
    rows are those input rows with the weight (and cohabitation) column in
    numeric form. *)
Theorem C6_filter_preserves_order (sp : filter_spec) (df out : DataFrame) :
  apply_filter parse_text sp df = Ok out ->
  sublist (map idx (rows out)) (map idx (rows df))
  /\ exists l, sublist l (rows df)
       /\ rows out = map (fun r => if has_cohab df
                                   then coerce_cohab parse_text (coerce_weight parse_text r)
                                   else coerce_weight parse_text r) l.
Proof.
  intros E. apply apply_filter_ok in E as (_ & Hrun & _).
  apply run_stages_sublist in Hrun as (l & Hl & Hout).
  assert (rows out = map (fun r => if has_cohab df
                                   then coerce_cohab parse_text (coerce_weight parse_text r)
                                   else coerce_weight parse_text r) l) as Hout'.
  { rewrite Hout. apply map_ext. intros r. rewrite upd_all_stages.
    by destruct (has_cohab df). }
  split; [|by exists l].
  rewrite Hout', map_map.
  erewrite map_ext; [by apply sublist_map|].
  intros r. by destruct (has_cohab df).
Qed.

(** C7: the weight step keeps exactly the rows whose weight is a number [w]
    with [lo <= w <= hi], both ends included, and drops the rows whose
    weight is missing or does not parse; of the weights 2.5, 3.1, 4.2 the
    range [3.0, 4.0] keeps the row of 3.1 only. *)
Theorem C7_weight_range (sp : filter_spec) (df : list row) :
  filter_weight parse_text sp df
  = map (coerce_weight parse_text)
      (List.filter (fun r => in_range parse_text (selected_wt sp).1 (selected_wt sp).2 (weight r)) df)
  /\ (forall c, in_range parse_text (selected_wt sp).1 (selected_wt sp).2 c = true <->
        exists w, to_numeric parse_text c = Some w
                  /\ ((selected_wt sp).1 <= w)%Q /\ (w <= (selected_wt sp).2)%Q)
  /\ filter_weight parse_text (default_spec 3.0 4.0) (rows weights_frame)
     = [ sample_row 1 (RNum 11) (RNum 3.1) RNaN ].
Proof.
  split; [|split].
  - pose proof (filter_weight_stage sp df) as H.
    unfold run_stage in H. cbn [ok upd keep stage_weight] in H.
    rewrite forallb_all in H. injection H as ->.
    rewrite filter_map_swap. f_equal.
    induction df as [|r df IH]; [reflexivity|]. cbn [List.filter].
    assert (in_range parse_text (selected_wt sp).1 (selected_wt sp).2
              (weight (coerce_weight parse_text r))
            = in_range parse_text (selected_wt sp).1 (selected_wt sp).2 (weight r)) as ->.
    { unfold in_range, coerce_weight, set_weight. cbn [weight].
      by rewrite to_numeric_of_numeric. }
    by rewrite IH.
  - intros c. unfold in_range.
    destruct (to_numeric parse_text c) as [q|].
    + rewrite andb_true_iff, !Qle_bool_iff. split.
      * intros [H1 H2]. by exists q.
      * intros (w & [= <-] & H1 & H2). by split.
    + split; [discriminate | by intros (w & [=] & _)].
  - reflexivity.
Qed.

(** ** The claims about the aggregates *)

Lemma true_count_le (s : list bool) :
  (length (List.filter (fun b : bool => b) s) <= length s)%nat.
Proof. induction s as [|[] s IH]; cbn; lia. Qed.

Lemma bool_mean_cases (s : list bool) :
  match bool_mean s with
  | Some q => s <> [] /\ (0 <= q)%Q /\ (q <= 1)%Q
  | None => s = []
  end.
Proof.
  destruct s as [|b s]; [reflexivity|].
  cbn [bool_mean]. split; [discriminate|].
  set (k := length (List.filter (fun b : bool => b) (b :: s))).
  set (n := length (b :: s)).
  assert (k <= n)%nat as Hkn by apply true_count_le.
  assert (0 < n)%nat as Hn by (subst n; cbn; lia).
  assert (0 < inject_Z (Z.of_nat n))%Q as Hpos.
  { change 0%Q with (inject_Z 0). rewrite <- Zlt_Qlt. lia. }
  split.
  - apply Qle_shift_div_l; [exact Hpos|].
    rewrite Qmult_0_l. change 0%Q with (inject_Z 0). rewrite <- Zle_Qle. lia.
  - apply Qle_shift_div_r; [exact Hpos|].
    rewrite Qmult_1_l. rewrite <- Zle_Qle. lia.
Qed.

Lemma percent_cases (s : list bool) :
  match (fun m => m * 100)%Q <$> bool_mean s with
  | Some q => s <> [] /\ (0 <= q)%Q /\ (q <= 100)%Q
  | None => s = []
  end.
Proof.
  pose proof (bool_mean_cases s) as H.
  destruct (bool_mean s) as [m|]; cbn; [|exact H].
  destruct H as (Hne & H0 & H1). split; [exact Hne|]. split.
  - apply Qmult_le_0_compat; [exact H0 | unfold Qle; cbn; lia].
  - apply (Qle_trans _ (1 * 100)%Q); [|unfold Qle; cbn; lia].
    apply Qmult_le_compat_r; [exact H1 | unfold Qle; cbn; lia].
Qed.

(** C2 (as amended): each ratio is NaN exactly on the empty frame, and on a
    frame with rows it is a number between 0 and 100. *)
Theorem C2_ratio_bounds (df : DataFrame) :
  match multiple_ratio parse_text df with
  | Some q => rows df <> [] /\ (0 <= q)%Q /\ (q <= 100)%Q
  | None => rows df = []
  end
  /\ match marital_ratio parse_text df with
     | Some q => rows df <> [] /\ (0 <= q)%Q /\ (q <= 100)%Q
     | None => rows df = []
     end.
Proof.
  unfold multiple_ratio, marital_ratio, fillna. split.
  - match goal with |- context [bool_mean ?s] => pose proof (percent_cases s) as H end.
    destruct (_ <$> bool_mean _) as [q|].
    + destruct H as (Hne & Hb). split; [|exact Hb].
      intros Hnil. apply Hne. by rewrite Hnil.
    + by destruct (rows df).
  - match goal with |- context [bool_mean ?s] => pose proof (percent_cases s) as H end.
    destruct (_ <$> bool_mean _) as [q|].
    + destruct H as (Hne & Hb). split; [|exact Hb].
      intros Hnil. apply Hne. by rewrite Hnil.
    + by destruct (rows df).
Qed.



(** ** The claims about the dictionaries *)

(** C8: decoding never fails: a mapped code gives its label, an unmapped
    code (negative, or positive outside the dictionary) and a missing code
    give the missing label; a decoded series has the length of its input.
    The same holds of the series operation the code uses: [Series.map] of a
    dictionary sends every code of the series to its label, or to the
    missing label, position by position; a label column is that operation
    on the integer codes of its column; on two rows of codes the eight
    label columns of lines 192-204 are evaluated. *)
Theorem C8_decode_total (f : field) (c : Z) :
  match dict_of_field f !! c with
  | Some l => decode f (Some c) = Some l
  | None => decode f (Some c) = None
  end
  /\ decode f None = None
  /\ (forall s, length (series_map (dict_of_field f) s) = length s)
  /\ decode FRegion (Some 11) = Some "서울특별시"%string
  /\ decode FRegion (Some (-11)) = None
  /\ decode FRegion (Some 40) = None
  /\ decode FMotherAge (Some 99) = Some "미상"%string
  /\ (forall s : list (option Z),
        Forall2 (fun code label =>
                   label = match code with
                           | Some z => dict_of_field f !! z
                           | None => None
                           end)
                s (series_map (dict_of_field f) s))
  /\ (forall df,
        label_column parse_text f df
        = series_map (dict_of_field f)
            <$> to_int_series parse_text (map (code_column f) df) false)
  /\ map (fun g => label_column parse_text g codes_rows) all_fields
     = [ Ok [Some "서울특별시"; None];
         Ok [Some "30~34세"; None];
         Ok [Some "미상"; None];
         Ok [Some "첫째"; None];
         Ok [Some "쌍태아"; Some "미상"];
         Ok [Some "8명 이상"; None];
         Ok [Some "출생한국인"; None];
         Ok [Some "외국"; Some "미상"] ]%string.
Proof.
  split; [|split; [|split]].
  - unfold decode, map_cell. by destruct (dict_of_field f !! c).
  - reflexivity.
  - intros s. unfold series_map. apply length_map.
  - split; [vm_compute; reflexivity|].
    split; [vm_compute; reflexivity|].
    split; [vm_compute; reflexivity|].
    split; [vm_compute; reflexivity|].
    split; [|split].
    + intros s. unfold series_map.
      induction s as [|code s IH]; cbn [map]; constructor; [|exact IH].
      unfold map_cell. by destruct code.
    + intros df. unfold label_column.
      by destruct (to_int_series parse_text (map (code_column f) df) false).
    + vm_compute; reflexivity.
Qed.

Lemma dict_of_items_lookup {K V} `{Countable K} (items : list (K * V)) (k : K) (v : V) :
  dict_of_items items !! k = Some v -> In (k, v) items.
Proof.
  unfold dict_of_items.
  assert (forall m : gmap K V,
            foldl (fun m kv => <[kv.1 := kv.2]> m) m items !! k = Some v ->
            m !! k = Some v \/ In (k, v) items) as Hgen.
  { induction items as [|[k0 v0] items IH]; intros m; cbn [foldl]; [by left|].
    intros Hl. destruct (IH _ Hl) as [Hm | Hin]; [|right; by right].
    cbn in Hm. destruct (decide (k0 = k)) as [<- | Hne].
    - rewrite lookup_insert_eq in Hm. injection Hm as <-. right. by left.
    - rewrite lookup_insert_ne in Hm by exact Hne. by left. }
  intros Hl. destruct (Hgen ∅ Hl) as [Hm | Hin]; [|exact Hin].
  by rewrite lookup_empty in Hm.
Qed.

Lemma REGION_MAP_round_trip (c : Z) (l : string) :
  REGION_MAP !! c = Some l -> REGION_MAP_REV !! l = Some c.
Proof.
  intros Hl. apply dict_of_items_lookup in Hl.
  unfold REGION_MAP_items in Hl. cbn [In] in Hl.
  repeat (destruct Hl as [Hl | Hl];
          [injection Hl as <- <-; vm_compute; reflexivity|]).
  destruct Hl.
Qed.

Lemma filter_regions_eq (sp : filter_spec) (df : list row) :
  filter_regions parse_text sp df = run_stage (stage_regions parse_text sp) df.
Proof.
  unfold filter_regions, stage_regions.
  destruct (selected_regions_name sp) as [|n names]; [by rewrite run_stage_idle|].
  rewrite run_stage_select, to_int_series_spec.
  destruct (forallb _ _); cbn; [|reflexivity].
  by rewrite map_map, mask_isin_spec, getitem_mask_map.
Qed.

(** C9: a label of the region dictionary belongs to one code only, the
    reversed dictionary sends it back to that code, and selecting that one
    label keeps exactly the rows whose region code is that code. *)
Theorem C9_region_round_trip (c : Z) (l : string) :
  REGION_MAP !! c = Some l ->
  (forall c', REGION_MAP !! c' = Some l -> c' = c)
  /\ REGION_MAP_REV !! l = Some c
  /\ (forall sp df, selected_regions_name sp = [l] ->
        filter_regions parse_text sp df
        = if forallb (castable parse_text) (map region_code df)
          then Ok (List.filter (fun r => code_eq parse_text c (region_code r)) df)
          else Raise TypeError)
  /\ (forall x, code_eq parse_text c x = true <-> int_code parse_text x = Some c).
Proof.
  intros Hl. pose proof (REGION_MAP_round_trip c l Hl) as Hrev.
  split; [|split; [exact Hrev | split]].
  - intros c' Hl'. apply REGION_MAP_round_trip in Hl'. congruence.
  - intros sp df Hsel.
    rewrite filter_regions_eq. unfold stage_regions. rewrite Hsel.
    cbn [omap list_omap]. rewrite Hrev.
    rewrite run_stage_select.
    destruct (forallb _ _); [|reflexivity].
    f_equal. apply filter_ext. intros r. unfold code_in, code_eq.
    destruct (int_code parse_text (region_code r)); [|reflexivity].
    cbn. apply orb_false_r.
  - intros x. unfold code_eq.
    destruct (int_code parse_text x) as [z|]; [|split; discriminate].
    rewrite Z.eqb_eq. split; [by intros -> | by intros [= ->]].
Qed.

(** ** The filter as one predicate *)

Lemma filter_filter_andb {A} (p q : A -> bool) (l : list A) :
  List.filter q (List.filter p l) = List.filter (fun a => p a && q a) l.
Proof.
  induction l as [|a l IH]; cbn; [reflexivity|].
  destruct (p a); cbn; [destruct (q a)|]; by rewrite IH.
Qed.

Lemma run_stages_filter (ss : list stage) (df out : list row) :
  run_stages ss df = Ok out ->
  out = map (upd_all ss) (List.filter (keeps_all ss) df).
Proof.
  revert df out. induction ss as [|s ss IH]; intros df out.
  - intros [= <-]. cbn. by rewrite filter_all, map_id.
  - rewrite run_stages_cons.
    destruct (run_stage s df) as [d|] eqn:E; rbind; [|discriminate].
    intros Hrun. apply run_stage_ok in E as [_ ->].
    rewrite (IH _ _ Hrun).
    rewrite !filter_map_swap, map_map, filter_filter_andb.
    reflexivity.
Qed.

Lemma stage_year_reads (sp : filter_spec) (r : row) :
  upd (stage_year parse_text sp) r = r
  /\ keep (stage_year parse_text sp) r
     = match selected_year sp with
       | None => true
       | Some y => code_eq parse_text y (year r)
       end.
Proof. unfold stage_year. by destruct (selected_year sp). Qed.

Lemma stage_regions_reads (sp : filter_spec) (r : row) :
  upd (stage_regions parse_text sp) r = r
  /\ keep (stage_regions parse_text sp) r
     = match selected_regions_name sp with
       | [] => true
       | names => code_in parse_text (omap (fun n => REGION_MAP_REV !! n) names) (region_code r)
       end.
Proof. unfold stage_regions. by destruct (selected_regions_name sp). Qed.

Lemma stage_genders_reads (sp : filter_spec) (r : row) :
  upd (stage_genders parse_text sp) r = r
  /\ keep (stage_genders parse_text sp) r
     = match selected_genders sp with
       | [] => true
       | genders => code_in parse_text (omap (fun g => rev_gender !! g) genders) (gender_code r)
       end.
Proof. unfold stage_genders. by destruct (selected_genders sp). Qed.

Lemma stage_months_reads (sp : filter_spec) (r : row) :
  upd (stage_months parse_text sp) r = r
  /\ keep (stage_months parse_text sp) r
     = match selected_months sp with
       | [] => true
       | months => code_in parse_text months (birth_month r)
       end.
Proof. unfold stage_months. by destruct (selected_months sp). Qed.

Lemma stage_multiple_reads (sp : filter_spec) (r : row) :
  String.eqb (selected_multiple sp) ALL = true
    \/ is_Some (rev_multiple !! selected_multiple sp) ->
  upd (stage_multiple parse_text sp) r = r
  /\ keep (stage_multiple parse_text sp) r
     = (if String.eqb (selected_multiple sp) ALL then true
        else match rev_multiple !! selected_multiple sp with
             | Some v => code_eq parse_text v (multi_type_code r)
             | None => false
             end).
Proof.
  unfold stage_multiple. intros [H | [v H]].
  - by rewrite H.
  - rewrite H. by destruct (String.eqb _ _).
Qed.

Lemma stage_marital_reads (sp : filter_spec) (r : row) :
  String.eqb (selected_marital sp) ALL = true
    \/ is_Some (rev_marital !! selected_marital sp) ->
  upd (stage_marital parse_text sp) r = r
  /\ keep (stage_marital parse_text sp) r
     = (if String.eqb (selected_marital sp) ALL then true
        else match rev_marital !! selected_marital sp with
             | Some v => code_eq parse_text v (marital_code r)
             | None => false
             end).
Proof.
  unfold stage_marital. intros [H | [v H]].
  - by rewrite H.
  - rewrite H. by destruct (String.eqb _ _).
Qed.

Lemma keeps_all_tail (sp : filter_spec) (present : bool) (r : row) :
  keeps_all [stage_weight parse_text sp; stage_na sp; stage_cohab parse_text present] r
  = in_range parse_text (selected_wt sp).1 (selected_wt sp).2 (weight r)
    && (if exclude_na sp then
          negb (isna (year r) || isna (region_code r) || isna (gender_code r)
                || isna (birth_month r))
        else true)
    && (if present then negb (is_sentinel parse_text (cohab r)) else true).
Proof.
  cbn [keeps_all]. unfold stage_weight, stage_na, stage_cohab.
  destruct r as [i y rg g m mt ma w c fa mo mu mc fn mn].
  destruct (exclude_na sp), present;
    unfold idle, coerce_weight, coerce_cohab, set_weight, set_cohab, in_range, is_sentinel;
    cbn [ok upd keep idx year region_code gender_code birth_month multi_type_code
         marital_code weight cohab];
    rewrite ?to_numeric_of_numeric;
    destruct (to_numeric parse_text w) as [q|]; cbn [of_numeric isna];
    btauto.
Qed.

Lemma keeps_all_stages (sp : filter_spec) (present : bool) (r : row) :
  String.eqb (selected_multiple sp) ALL = true
    \/ is_Some (rev_multiple !! selected_multiple sp) ->
  String.eqb (selected_marital sp) ALL = true
    \/ is_Some (rev_marital !! selected_marital sp) ->
  keeps_all (stages parse_text sp present) r = passes parse_text sp present r.
Proof.
  intros Hmul Hmar. unfold stages.
  change (keeps_all (?s1 :: ?s2 :: ?s3 :: ?s4 :: ?s5 :: ?s6 :: ?rest) r)
    with (keep s1 (upd s1 r)
          && (keep s2 (upd s2 (upd s1 r))
          && (keep s3 (upd s3 (upd s2 (upd s1 r)))
          && (keep s4 (upd s4 (upd s3 (upd s2 (upd s1 r))))
          && (keep s5 (upd s5 (upd s4 (upd s3 (upd s2 (upd s1 r)))))
          && (keep s6 (upd s6 (upd s5 (upd s4 (upd s3 (upd s2 (upd s1 r))))))
          && keeps_all rest (upd s6 (upd s5 (upd s4 (upd s3 (upd s2 (upd s1 r)))))))))))).
  rewrite (proj1 (stage_year_reads sp r)), (proj1 (stage_regions_reads sp r)),
    (proj1 (stage_genders_reads sp r)), (proj1 (stage_months_reads sp r)),
    (proj1 (stage_multiple_reads sp r Hmul)), (proj1 (stage_marital_reads sp r Hmar)).
  rewrite (proj2 (stage_year_reads sp r)), (proj2 (stage_regions_reads sp r)),
    (proj2 (stage_genders_reads sp r)), (proj2 (stage_months_reads sp r)),
    (proj2 (stage_multiple_reads sp r Hmul)), (proj2 (stage_marital_reads sp r Hmar)).
  rewrite keeps_all_tail. unfold passes.
  rewrite !andb_assoc. reflexivity.
Qed.

Lemma apply_filter_labels (sp : filter_spec) (df out : DataFrame) :
  apply_filter parse_text sp df = Ok out ->
  (String.eqb (selected_multiple sp) ALL = true
     \/ is_Some (rev_multiple !! selected_multiple sp))
  /\ (String.eqb (selected_marital sp) ALL = true
     \/ is_Some (rev_marital !! selected_marital sp)).
Proof.
  unfold apply_filter.
  destruct (filter_year _ _ _) as [d1|]; rbind; [|discriminate].
  destruct (filter_regions _ _ _) as [d2|]; rbind; [|discriminate].
  destruct (filter_genders _ _ _) as [d3|]; rbind; [|discriminate].
  destruct (filter_months _ _ _) as [d4|]; rbind; [|discriminate].
  destruct (filter_multiple _ _ _) as [d5|] eqn:E5; rbind; [|discriminate].
  destruct (filter_marital _ _ _) as [d6|] eqn:E6; rbind; [|discriminate].
  intros _. split.
  - unfold filter_multiple in E5.
    destruct (String.eqb (selected_multiple sp) ALL); [by left|right].
    rewrite to_int_series_spec in E5.
    destruct (forallb _ _); rbind_in E5; [|discriminate].
    unfold getitem in E5.
    destruct (rev_multiple !! selected_multiple sp); [by eexists | discriminate].
  - unfold filter_marital in E6.
    destruct (String.eqb (selected_marital sp) ALL); [by left|right].
    rewrite to_int_series_spec in E6.
    destruct (forallb _ _); rbind_in E6; [|discriminate].
    unfold getitem in E6.
    destruct (rev_marital !! selected_marital sp); [by eexists | discriminate].
Qed.

Lemma filtered_rows (sp : filter_spec) (df out : DataFrame) :
  apply_filter parse_text sp df = Ok out ->
  rows out = map (normalise parse_text (has_cohab df))
               (List.filter (passes parse_text sp (has_cohab df)) (rows df))
  /\ has_cohab out = has_cohab df.
Proof.
  intros E. destruct (apply_filter_labels _ _ _ E) as [Hmul Hmar].
  apply apply_filter_ok in E as (Hc & Hrun & _).
  split; [|exact Hc].
  rewrite (run_stages_filter _ _ _ Hrun).
  erewrite map_ext; [|intros r; apply upd_all_stages].
  f_equal. apply filter_ext. intros r. by apply keeps_all_stages.
Qed.

(** X2: on a frame whose code cells float64 holds exactly, when the filter
    returns, its rows are exactly the input rows that pass the conjunction
    of the active conditions, in the input's order, with the weight (and
    cohabitation) column in numeric form. *)
Theorem apply_filter_is_conjunction (sp : filter_spec) (df out : DataFrame) :
  Forall (fun r => small_codes parse_text r = true) (rows df) ->
  apply_filter parse_text sp df = Ok out ->
  rows out = map (normalise parse_text (has_cohab df))
               (List.filter (passes parse_text sp (has_cohab df)) (rows df))
  /\ has_cohab out = has_cohab df.
Proof. intros _. apply filtered_rows. Qed.

Lemma filtered_row (sp : filter_spec) (df out : DataFrame) (r' : row) :
  apply_filter parse_text sp df = Ok out ->
  In r' (rows out) ->
  exists r, In r (rows df) /\ r' = normalise parse_text (has_cohab df) r
            /\ passes parse_text sp (has_cohab df) r = true.
Proof.
  intros E Hin. apply filtered_rows in E as [E _]. rewrite E in Hin.
  apply in_map_iff in Hin as (r & <- & Hr). apply filter_In in Hr as [Hr Hp].
  by exists r.
Qed.

Lemma normalise_reads (present : bool) (r : row) :
  year (normalise parse_text present r) = year r
  /\ region_code (normalise parse_text present r) = region_code r
  /\ gender_code (normalise parse_text present r) = gender_code r
  /\ birth_month (normalise parse_text present r) = birth_month r
  /\ multi_type_code (normalise parse_text present r) = multi_type_code r
  /\ marital_code (normalise parse_text present r) = marital_code r
  /\ weight (normalise parse_text present r) = of_numeric (to_numeric parse_text (weight r))
  /\ to_numeric parse_text (cohab (normalise parse_text present r))
     = to_numeric parse_text (cohab r).
Proof.
  unfold normalise, coerce_cohab, coerce_weight, set_cohab, set_weight.
  destruct present, r; cbn; rewrite ?to_numeric_of_numeric; by repeat split.
Qed.

(** The nine conditions of [passes], one by one. *)
Lemma passes_parts (sp : filter_spec) (present : bool) (r : row) :
  passes parse_text sp present r = true ->
  match selected_year sp with
  | None => true
  | Some y => code_eq parse_text y (year r)
  end = true
  /\ match selected_regions_name sp with
     | [] => true
     | names => code_in parse_text (omap (fun n => REGION_MAP_REV !! n) names) (region_code r)
     end = true
  /\ match selected_genders sp with
     | [] => true
     | genders => code_in parse_text (omap (fun g => rev_gender !! g) genders) (gender_code r)
     end = true
  /\ match selected_months sp with
     | [] => true
     | months => code_in parse_text months (birth_month r)
     end = true
  /\ (if String.eqb (selected_multiple sp) ALL then true
      else match rev_multiple !! selected_multiple sp with
           | Some v => code_eq parse_text v (multi_type_code r)
           | None => false
           end) = true
  /\ (if String.eqb (selected_marital sp) ALL then true
      else match rev_marital !! selected_marital sp with
           | Some v => code_eq parse_text v (marital_code r)
           | None => false
           end) = true
  /\ in_range parse_text (selected_wt sp).1 (selected_wt sp).2 (weight r) = true
  /\ (if present then negb (is_sentinel parse_text (cohab r)) else true) = true.
Proof.
  unfold passes. rewrite !andb_true_iff. tauto.
Qed.

(** ** [to_int_series] *)

Lemma to_int_series_both (s : list raw) (dropna_flag : bool) :
  to_int_series parse_text s dropna_flag =
    if forallb (castable parse_text) s
    then Ok (if dropna_flag then List.filter is_some (map (int_code parse_text) s)
             else map (int_code parse_text) s)
    else Raise TypeError.
Proof.
  unfold to_int_series. rewrite astype_Int64_spec.
  replace (forallb _ (map (to_numeric parse_text) s))
    with (forallb (castable parse_text) s)
    by (induction s as [|c s IH]; cbn; [reflexivity | by rewrite IH]).
  rewrite map_map.
  destruct (forallb _ s); reflexivity.
Qed.

(** A rational is an int64 exactly when the cast accepts it. *)
Lemma astype_Int64_cell_integral (q : Q) (z : Z) :
  astype_Int64_cell (Some q) = Ok (Some z)
  <-> (q == inject_Z z)%Q /\ INT64_MIN <= z <= INT64_MAX.
Proof.
  unfold astype_Int64_cell. destruct q as [n d]. cbn [Qnum Qden].
  split.
  - destruct (Qeq_bool _ _ && _ && _) eqn:E; [|discriminate].
    intros [= <-].
    apply andb_true_iff in E as [E E3]. apply andb_true_iff in E as [E1 E2].
    apply Qeq_bool_iff in E1. apply Z.leb_le in E2, E3.
    split; [by symmetry | lia].
  - intros [Hq Hr].
    assert (n / Z.pos d = z) as ->.
    { unfold Qeq in Hq. cbn in Hq. rewrite Z.mul_1_r in Hq. subst n.
      apply Z.div_mul. lia. }
    assert (Qeq_bool (inject_Z z) (n # d) = true) as ->
      by (apply Qeq_bool_iff; by symmetry).
    destruct Hr as [H1 H2].
    apply Z.leb_le in H1, H2. by rewrite H1, H2.
Qed.

Lemma astype_Int64_cell_raises (q : Q) :
  astype_Int64_cell (Some q) = Raise TypeError
  <-> ~ exists z, (q == inject_Z z)%Q /\ INT64_MIN <= z <= INT64_MAX.
Proof.
  split.
  - intros Hr (z & Hz). apply astype_Int64_cell_integral in Hz. congruence.
  - intros Hn. destruct (astype_Int64_cell (Some q)) as [[z|]|e] eqn:E.
    + exfalso. apply Hn. exists z. by apply astype_Int64_cell_integral.
    + unfold astype_Int64_cell in E. by destruct (_ && _).
    + unfold astype_Int64_cell in E. destruct (_ && _); [discriminate|].
      by injection E as <-.
Qed.

Lemma int_code_Some (c : raw) (z : Z) :
  int_code parse_text c = Some z
  <-> exists q, to_numeric parse_text c = Some q
                /\ (q == inject_Z z)%Q /\ INT64_MIN <= z <= INT64_MAX.
Proof.
  unfold int_code. destruct (to_numeric parse_text c) as [q|].
  - split.
    + destruct (astype_Int64_cell (Some q)) as [o|] eqn:E; [|discriminate].
      intros ->. exists q. split; [reflexivity|].
      by apply astype_Int64_cell_integral.
    + intros (q' & [= <-] & Hq).
      apply astype_Int64_cell_integral in Hq. by rewrite Hq.
  - cbn. split; [discriminate | by intros (q & [=] & _)].
Qed.

Lemma castable_false (c : raw) :
  castable parse_text c = false
  <-> exists q, to_numeric parse_text c = Some q
                /\ ~ exists z, (q == inject_Z z)%Q /\ INT64_MIN <= z <= INT64_MAX.
Proof.
  unfold castable. destruct (to_numeric parse_text c) as [q|].
  - split.
    + destruct (astype_Int64_cell (Some q)) as [o|e] eqn:E; [discriminate|].
      intros _. exists q. split; [reflexivity|].
      apply astype_Int64_cell_raises. unfold astype_Int64_cell in *.
      destruct (_ && _); [discriminate | reflexivity].
    + intros (q' & [= <-] & Hn). apply astype_Int64_cell_raises in Hn.
      by rewrite Hn.
  - cbn. split; [discriminate | by intros (q & [=] & _)].
Qed.

(** X1: on a column of cells that float64 holds exactly, [to_int_series]
    raises exactly when some cell holds a number that is not an integer,
    and then it raises [TypeError]; missing cells and text that does not
    parse never make it raise.  When it returns, every cell has become its
    integer or the missing marker, and with [dropna] the missing ones are
    gone. *)
Theorem to_int_series_characterised (s : list raw) (dropna_flag : bool) :
  forallb (float_exact parse_text) s = true ->
  (to_int_series parse_text s dropna_flag = Raise TypeError
   \/ to_int_series parse_text s dropna_flag
      = Ok (if dropna_flag then List.filter is_some (map (int_code parse_text) s)
            else map (int_code parse_text) s))
  /\ (to_int_series parse_text s dropna_flag = Raise TypeError
      <-> exists c q, In c s /\ to_numeric parse_text c = Some q
            /\ ~ exists z, (q == inject_Z z)%Q)
  /\ (forall c z, In c s -> int_code parse_text c = Some z ->
        exists q, to_numeric parse_text c = Some q /\ (q == inject_Z z)%Q).
Proof.
  intros Hsmall.
  assert (forall c q, In c s -> to_numeric parse_text c = Some q ->
            (~ exists z, (q == inject_Z z)%Q)
            <-> ~ exists z, (q == inject_Z z)%Q /\ INT64_MIN <= z <= INT64_MAX) as Hrange.
  { intros c q Hin Hq. rewrite forallb_forall in Hsmall. specialize (Hsmall c Hin).
    unfold float_exact in Hsmall. rewrite Hq in Hsmall.
    apply andb_true_iff in Hsmall as [H1 H2]. apply Qle_bool_iff in H1, H2.
    split.
    - intros Hn (z & Hz & _). apply Hn. by exists z.
    - intros Hn (z & Hz). apply Hn. exists z. split; [exact Hz|].
      rewrite Hz in H1, H2. rewrite <- Zle_Qle in H1, H2.
      unfold INT64_MIN, INT64_MAX. lia. }
  rewrite to_int_series_both.
  destruct (forallb (castable parse_text) s) eqn:E.
  - split; [by right|]. split.
    + split; [discriminate|].
      intros (c & q & Hin & Hq & Hn). rewrite forallb_forall in E.
      specialize (E c Hin).
      assert (castable parse_text c = false).
      { apply castable_false. exists q. split; [exact Hq|]. by apply (Hrange c q). }
      congruence.
    + intros c z _ Hi. apply int_code_Some in Hi as (q & Hq & Hz & _). by exists q.
  - split; [by left|]. split.
    + split; [|reflexivity]. intros _.
      assert (exists c, In c s /\ castable parse_text c = false) as (c & Hin & Hc).
      { clear -E. induction s as [|c s IH]; [discriminate|].
        cbn in E. apply andb_false_iff in E as [E | E].
        - exists c. split; [by left | exact E].
        - destruct (IH E) as (c' & Hin & Hc'). exists c'. split; [by right | exact Hc']. }
      apply castable_false in Hc as (q & Hq & Hn). exists c, q.
      split; [exact Hin|]. split; [exact Hq|]. by apply (Hrange c q).
    + intros c z _ Hi. apply int_code_Some in Hi as (q & Hq & Hz & _). by exists q.
Qed.

(** ** The filter on clean data *)

Lemma mapM_getitem_known {K V} `{Countable K} (d : gmap K V) (ks : list K) :
  forallb (fun k => is_some (d !! k)) ks = true ->
  mapM (getitem d) ks = Ok (omap (fun k => d !! k) ks).
Proof.
  intros Hk. destruct (mapM_getitem d ks) as [E | E]; [exact E|].
  exfalso. induction ks as [|k ks IH]; [discriminate|].
  cbn [forallb] in Hk. apply andb_true_iff in Hk as [Hk1 Hk2].
  cbn [mapM] in E.
  assert (getitem d k = match d !! k with Some v => Ok v | None => Raise KeyError end)
    as Hg by reflexivity.
  rewrite Hg in E. destruct (d !! k) as [v|]; [|discriminate].
  destruct (mapM (getitem d) ks) as [l|e] eqn:E'; [discriminate|].
  apply IH; [exact Hk2|]. destruct (mapM_getitem d ks) as [E2 | E2]; congruence.
Qed.

Lemma steps_on_empty (sp : filter_spec) (present : bool) :
  labels_known sp = true ->
  run (steps parse_text sp present) [] = Ok [].
Proof.
  unfold labels_known. intros Hk.
  apply andb_true_iff in Hk as [Hk Hmar]. apply andb_true_iff in Hk as [Hg Hmul].
  unfold steps. cbn [run].
  assert (filter_year parse_text sp [] = Ok []) as ->
    by (unfold filter_year; by destruct (selected_year sp)).
  rbind.
  assert (filter_regions parse_text sp [] = Ok []) as ->
    by (unfold filter_regions; by destruct (selected_regions_name sp)).
  rbind.
  assert (filter_genders parse_text sp [] = Ok []) as ->.
  { unfold filter_genders. destruct (selected_genders sp) as [|g gs] eqn:Egs; [reflexivity|].
    rewrite to_int_series_spec. cbn [map forallb]. rbind.
    by rewrite (mapM_getitem_known _ _ Hg). }
  rbind.
  assert (filter_months parse_text sp [] = Ok []) as ->
    by (unfold filter_months; by destruct (selected_months sp)).
  rbind.
  assert (filter_multiple parse_text sp [] = Ok []) as ->.
  { unfold filter_multiple. destruct (String.eqb (selected_multiple sp) ALL); [reflexivity|].
    cbn [orb] in Hmul. rewrite to_int_series_spec. cbn [map forallb]. rbind.
    unfold getitem. by destruct (rev_multiple !! selected_multiple sp). }
  rbind.
  assert (filter_marital parse_text sp [] = Ok []) as ->.
  { unfold filter_marital. destruct (String.eqb (selected_marital sp) ALL); [reflexivity|].
    cbn [orb] in Hmar. rewrite to_int_series_spec. cbn [map forallb]. rbind.
    unfold getitem. by destruct (rev_marital !! selected_marital sp). }
  rbind.
  unfold filter_weight, filter_na, filter_cohab. cbn.
  by destruct (exclude_na sp), present.
Qed.

Lemma run_stages_total (Q : row -> Prop) (ss : list stage) (df : list row) :
  Forall (fun s => forall r, Q r -> ok s r = true /\ Q (upd s r)) ss ->
  Forall Q df ->
  exists out, run_stages ss df = Ok out.
Proof.
  revert df. induction ss as [|s ss IH]; intros df Hss Hdf; [by eexists|].
  apply Forall_cons_1 in Hss as [Hs Hss].
  rewrite run_stages_cons. unfold run_stage at 1.
  assert (forallb (ok s) df = true) as ->.
  { apply forallb_forall. rewrite List.Forall_forall in Hdf.
    intros r Hr. by apply Hs, Hdf. }
  rbind. apply IH; [exact Hss|].
  rewrite List.Forall_forall in *. intros r Hr.
  apply filter_In in Hr as [Hr _]. apply in_map_iff in Hr as (r0 & <- & Hr0).
  by apply Hs, Hdf.
Qed.

Lemma stages_ok_on_clean (sp : filter_spec) (present : bool) :
  Forall (fun s => forall r, clean parse_text r = true ->
                     ok s r = true /\ clean parse_text (upd s r) = true)
         (stages parse_text sp present).
Proof.
  unfold stages.
  repeat match goal with
    | |- Forall _ (_ :: _) => apply Forall_cons; split
    | |- Forall _ [] => apply Forall_nil
    | |- True => exact I
    end;
    pick_stages sp present;
    unfold clean, select, idle, coerce_weight, coerce_cohab, set_weight, set_cohab;
    cbn [ok upd keep].
  all: intros [] Hc;
    cbn [idx year region_code gender_code birth_month multi_type_code marital_code
         weight cohab] in *;
    (split; [|exact Hc]);
    repeat (apply andb_true_iff in Hc as [Hc ?]); done.
Qed.

(** X3: On a frame whose six code columns can be cast, and with labels taken
    from the widgets' options, the filter returns a frame: it does not
    raise. *)
Theorem apply_filter_returns_on_clean_data (sp : filter_spec) (df : DataFrame) :
  Forall (fun r => clean parse_text r = true) (rows df) ->
  labels_known sp = true ->
  exists out, apply_filter parse_text sp df = Ok out.
Proof.
  intros Hclean Hk. rewrite apply_filter_run.
  destruct (run_dichotomy _ _ (steps_implement sp (has_cohab df))) as [H | H].
  - rewrite H.
    destruct (run_stages_total (fun r => clean parse_text r = true) _ _
                (stages_ok_on_clean sp (has_cohab df)) Hclean) as [out ->].
    by eexists.
  - destruct (H []) as [e He].
    rewrite (steps_on_empty sp (has_cohab df) Hk) in He. discriminate.
Qed.

(** ** Reversed dictionaries *)

Lemma foldl_insert_other {K V} `{Countable K} (items : list (K * V)) (m : gmap K V) (k : K) :
  ~ In k (map fst items) ->
  foldl (fun m kv => <[kv.1 := kv.2]> m) m items !! k = m !! k.
Proof.
  revert m. induction items as [|[k0 v0] items IH]; intros m Hn; [reflexivity|].
  cbn [foldl]. rewrite IH by (intros Hin; apply Hn; by right).
  cbn. apply lookup_insert_ne. intros ->. apply Hn. by left.
Qed.

Lemma dict_of_items_In {K V} `{Countable K} (items : list (K * V)) (k : K) (v : V) :
  List.NoDup (map fst items) ->
  In (k, v) items ->
  dict_of_items items !! k = Some v.
Proof.
  unfold dict_of_items. generalize (∅ : gmap K V).
  induction items as [|[k0 v0] items IH]; intros m Hnd Hin; [destruct Hin|].
  cbn [map] in Hnd. apply List.NoDup_cons_iff in Hnd as [Hk0 Hnd].
  cbn [foldl]. destruct Hin as [[= -> ->] | Hin].
  - rewrite foldl_insert_other by exact Hk0. cbn. apply lookup_insert_eq.
  - by apply IH.
Qed.

(** X4: A dictionary reversed by the comprehension [{v: k for k, v in d.items()}]
    finds, for every label, the code that carries it -- provided no code and
    no label occurs twice among the items. *)
Theorem dict_reversed_round_trip {K V} `{Countable K} `{Countable V}
    (items : list (K * V)) (k : K) (v : V) :
  List.NoDup (map fst items) ->
  List.NoDup (map snd items) ->
  dict_reversed items !! v = Some k <-> dict_of_items items !! k = Some v.
Proof.
  intros Hk Hv. unfold dict_reversed.
  assert (In (v, k) (map (fun kv : K * V => (kv.2, kv.1)) items) <-> In (k, v) items) as Hswap.
  { rewrite in_map_iff. split.
    - intros ([k' v'] & [= <- <-] & Hin). exact Hin.
    - intros Hin. by exists (k, v). }
  assert (map fst (map (fun kv : K * V => (kv.2, kv.1)) items) = map snd items) as Hfst
    by (rewrite map_map; reflexivity).
  split.
  - intros Hl. apply dict_of_items_lookup in Hl. apply Hswap in Hl.
    by apply dict_of_items_In.
  - intros Hl. apply dict_of_items_lookup in Hl. apply Hswap in Hl.
    apply dict_of_items_In; [by rewrite Hfst | exact Hl].
Qed.

(** ** Loading *)

Lemma try_encodings_spec (read_csv : string -> read_outcome) (encs : list string) :
  match try_encodings read_csv encs with
  | None => Forall (fun e => read_csv e = UnicodeDecodeError) encs
  | Some o =>
      exists pre enc post,
        encs = pre ++ enc :: post
        /\ Forall (fun e => read_csv e = UnicodeDecodeError) pre
        /\ read_csv enc = o /\ o <> UnicodeDecodeError
  end.
Proof.
  induction encs as [|e encs IH]; cbn [try_encodings]; [constructor|].
  destruct (read_csv e) as [df| |] eqn:E.
  - exists [], e, encs. by repeat split.
  - destruct (try_encodings read_csv encs) as [o|].
    + destruct IH as (pre & enc & post & -> & Hpre & Henc & Ho).
      exists (e :: pre), enc, post. repeat split; [by constructor | exact Henc | exact Ho].
    + by constructor.
  - exists [], e, encs. by repeat split.
Qed.

(** X5: [load_data] returns what the first encoding that does not raise
    [UnicodeDecodeError] gives, trying cp949, euc-kr, utf-8-sig, utf-8,
    ISO-8859-1 in this order -- a frame or any other error, which it lets
    through; the lenient re-read happens only when all five raise
    [UnicodeDecodeError]. *)
Theorem load_data_first_readable (read_csv : string -> read_outcome)
    (read_lenient : read_outcome) :
  (Forall (fun e => read_csv e = UnicodeDecodeError) encodings
   /\ load_data read_csv read_lenient = read_lenient)
  \/ (exists pre enc post,
        encodings = pre ++ enc :: post
        /\ Forall (fun e => read_csv e = UnicodeDecodeError) pre
        /\ read_csv enc <> UnicodeDecodeError
        /\ load_data read_csv read_lenient = read_csv enc).
Proof.
  unfold load_data. pose proof (try_encodings_spec read_csv encodings) as H.
  destruct (try_encodings read_csv encodings) as [o|].
  - right. destruct H as (pre & enc & post & Hsplit & Hpre & Henc & Ho).
    exists pre, enc, post. repeat split; [exact Hsplit | exact Hpre | congruence | congruence].
  - left. by split.
Qed.

(** ** The widget options *)

Lemma existsb_Zeqb (x : Z) (l : list Z) : existsb (Z.eqb x) l = true <-> In x l.
Proof.
  rewrite existsb_exists. split.
  - intros (y & Hy & Heq). apply Z.eqb_eq in Heq. by subst.
  - intros Hin. exists x. split; [exact Hin | apply Z.eqb_refl].
Qed.

Lemma unique_from_In (seen l : list Z) (x : Z) :
  In x (unique_from seen l) <-> In x l /\ ~ In x seen.
Proof.
  revert seen. induction l as [|y l IH]; intros seen; cbn [unique_from].
  - cbn. tauto.
  - destruct (existsb (Z.eqb y) seen) eqn:E.
    + apply existsb_Zeqb in E. rewrite IH. cbn. split.
      * intros [H1 H2]. tauto.
      * intros [[-> | H1] H2]; [contradiction | tauto].
    + assert (~ In y seen) as Hy.
      { intros Hin. apply existsb_Zeqb in Hin. congruence. }
      cbn [In]. rewrite IH. cbn [In]. split.
      * intros [<- | [H1 H2]]; [tauto|]. split; [tauto|]. intros H3. apply H2. by right.
      * intros [[-> | H1] H2]; [by left|].
        destruct (Z.eq_dec y x) as [-> | Hne]; [by left|].
        right. split; [exact H1|]. intros [H3 | H3]; [contradiction | contradiction].
Qed.

Lemma unique_from_NoDup (seen l : list Z) : List.NoDup (unique_from seen l).
Proof.
  revert seen. induction l as [|y l IH]; intros seen; cbn [unique_from]; [constructor|].
  destruct (existsb (Z.eqb y) seen); [apply IH|].
  constructor; [|apply IH].
  rewrite unique_from_In. intros [_ H]. apply H. by left.
Qed.

Lemma dropna_is_some_In {A} (l : list (option A)) (x : A) :
  In x (dropna (List.filter is_some l)) <-> In (Some x) l.
Proof.
  unfold dropna. induction l as [|[a|] l IH]; cbn.
  - tauto.
  - rewrite IH. split; [intros [-> | H]; tauto | intros [[= ->] | H]; tauto].
  - rewrite IH. split; [tauto | intros [[=] | H]; tauto].
Qed.

Lemma sorted_codes_spec (col : list raw) :
  match sorted_codes parse_text col with
  | Ok codes =>
      forallb (castable parse_text) col = true
      /\ Sorted Z.le codes /\ List.NoDup codes
      /\ forall c, In c codes <-> In (Some c) (map (int_code parse_text) col)
  | Raise e => e = TypeError /\ forallb (castable parse_text) col = false
  end.
Proof.
  unfold sorted_codes. rewrite to_int_series_both.
  destruct (forallb (castable parse_text) col); rbind; [|by split].
  split; [reflexivity|]. split; [apply Sorted_merge_sort; apply _|].
  pose proof (merge_sort_Permutation Z.le
                (unique (dropna (List.filter is_some (map (int_code parse_text) col)))))
    as Hperm.
  split.
  - eapply Permutation_NoDup; [symmetry; exact Hperm | apply unique_from_NoDup].
  - intros c. rewrite <- dropna_is_some_In. split.
    + intros Hin. eapply Permutation_in in Hin; [|exact Hperm].
      apply unique_from_In in Hin. tauto.
    + intros Hin. eapply Permutation_in; [symmetry; exact Hperm|].
      apply unique_from_In. split; [exact Hin | by intros []].
Qed.

(** X6: on a year column that float64 holds exactly, the years offered by
    the year box are the integer years of the data, each once, in
    increasing order; the list is built exactly when every year cell can be
    cast, and otherwise the cast raises [TypeError]. *)
Theorem years_options (df : list row) :
  forallb (float_exact parse_text) (map year df) = true ->
  match years parse_text df with
  | Ok ys =>
      forallb (castable parse_text) (map year df) = true
      /\ Sorted Z.le ys /\ List.NoDup ys
      /\ forall y, In y ys <-> exists r, In r df /\ int_code parse_text (year r) = Some y
  | Raise e => e = TypeError /\ forallb (castable parse_text) (map year df) = false
  end.
Proof.
  intros _. unfold years. pose proof (sorted_codes_spec (map year df)) as H.
  destruct (sorted_codes parse_text (map year df)) as [ys|e]; [|exact H].
  destruct H as (Hc & Hs & Hn & Hin).
  split; [exact Hc|]. split; [exact Hs|]. split; [exact Hn|].
  intros y. rewrite Hin, map_map, in_map_iff. split.
  - intros (r & Hr & Hi). by exists r.
  - intros (r & Hr & Hi). by exists r.
Qed.

Lemma REGION_MAP_REV_back (l : string) (c : Z) :
  REGION_MAP_REV !! l = Some c -> REGION_MAP !! c = Some l.
Proof.
  intros Hl. apply dict_of_items_lookup in Hl.
  unfold REGION_MAP_items in Hl. cbn [In map fst snd] in Hl.
  repeat (destruct Hl as [Hl | Hl];
          [injection Hl as <- <-; vm_compute; reflexivity|]).
  destruct Hl.
Qed.

Lemma omap_filter_is_some {A B} (f : A -> option B) (l : list A) :
  omap f (List.filter (fun a => is_some (f a)) l) = omap f l.
Proof.
  induction l as [|a l IH]; cbn; [reflexivity|].
  destruct (f a) as [b|] eqn:E; cbn; rewrite ?E, IH; reflexivity.
Qed.

Lemma omap_In {A B} (f : A -> option B) (l : list A) (y : B) :
  In y (omap f l) <-> exists x, In x l /\ f x = Some y.
Proof.
  rewrite <- list_elem_of_In, list_elem_of_omap.
  split; intros (x & Hx & Hf); exists x; split; try exact Hf; by apply list_elem_of_In.
Qed.

Lemma omap_NoDup {A B} (f : A -> option B) (l : list A) :
  (forall x y z, f x = Some z -> f y = Some z -> x = y) ->
  List.NoDup l -> List.NoDup (omap f l).
Proof.
  intros Hinj. induction 1 as [|a l Ha Hl IH]; cbn; [constructor|].
  destruct (f a) as [b|] eqn:E; [|exact IH].
  constructor; [|exact IH].
  intros Hin. apply omap_In in Hin as (x & Hx & Hf).
  assert (x = a) as -> by (eapply Hinj; eauto). contradiction.
Qed.

Lemma present_names_spec (df : list row) :
  match present_names parse_text df with
  | Ok names =>
      forallb (castable parse_text) (map region_code df) = true
      /\ List.NoDup names
      /\ forall n, In n names <->
           exists r c, In r df /\ int_code parse_text (region_code r) = Some c
                       /\ REGION_MAP !! c = Some n
  | Raise e => e = TypeError /\ forallb (castable parse_text) (map region_code df) = false
  end.
Proof.
  unfold present_names, present_codes.
  pose proof (sorted_codes_spec (map region_code df)) as H.
  destruct (sorted_codes parse_text (map region_code df)) as [codes|e]; rbind; [|exact H].
  destruct H as (Hc & _ & Hn & Hin).
  rewrite mapM_getitem_known.
  2:{ apply forallb_forall. intros c Hc'. by apply filter_In in Hc' as [_ ?]. }
  rewrite omap_filter_is_some.
  split; [exact Hc|]. split.
  - apply omap_NoDup; [|exact Hn].
    intros x y z Hx Hy. apply REGION_MAP_round_trip in Hx, Hy. congruence.
  - intros n. rewrite omap_In. split.
    + intros (c & Hc' & Hl). apply Hin in Hc'.
      rewrite map_map in Hc'. apply in_map_iff in Hc' as (r & Hr & Hrin).
      by exists r, c.
    + intros (r & c & Hr & Hi & Hl). exists c. split; [|exact Hl].
      apply Hin. rewrite map_map. apply in_map_iff. by exists r.
Qed.

(** X7: The region names offered (and selected by default) are the labels of
    the region codes that occur in the data and are in the dictionary, each
    once; building the list never raises [KeyError], and raises [TypeError]
    only when a region cell holds a number that is not an integer. *)
Theorem present_names_options (df : list row) :
  match present_names parse_text df with
  | Ok names =>
      List.NoDup names
      /\ forall n, In n names <->
           exists r c, In r df /\ int_code parse_text (region_code r) = Some c
                       /\ REGION_MAP !! c = Some n
  | Raise e => e = TypeError /\ forallb (castable parse_text) (map region_code df) = false
  end.
Proof.
  pose proof (present_names_spec df) as H.
  destruct (present_names parse_text df); [tauto | exact H].
Qed.

Lemma filter_ext_on {A} (p q : A -> bool) (l : list A) :
  (forall a, In a l -> p a = q a) -> List.filter p l = List.filter q l.
Proof.
  induction l as [|a l IH]; intros H; cbn; [reflexivity|].
  rewrite (H a) by (by left). rewrite IH by (intros b Hb; apply H; by right).
  reflexivity.
Qed.

Lemma forallb_incl {A} (p : A -> bool) (l k : list A) :
  (forall a, In a k -> In a l) -> forallb p l = true -> forallb p k = true.
Proof.
  intros Hin Hl. rewrite forallb_forall in *. intros a Ha. by apply Hl, Hin.
Qed.

Lemma filter_year_In (sp : filter_spec) (df d : list row) :
  filter_year parse_text sp df = Ok d -> forall r, In r d -> In r df.
Proof.
  intros E r Hr. destruct (filter_year_stage sp) as [H | H].
  - rewrite H in E. apply run_stage_ok in E as [_ ->].
    apply filter_In in Hr as [Hr _]. apply in_map_iff in Hr as (r0 & <- & Hr0).
    by rewrite (proj1 (stage_year_reads sp r0)).
  - destruct (H df) as [e He]. congruence.
Qed.

(** X8: the names offered are computed from the whole frame (lines 122-123)
    and the region step runs on a part of it, the frame the year step left
    (lines 156-161).  With the default selection -- every offered name --
    the region step keeps exactly the rows of that part whose region code
    has a label, so rows with a missing or unlisted region code are
    dropped; but when no region code of the whole frame has a label the
    offered list is empty and the step keeps everything.  The region cells
    are taken to be exact in float64. *)
Theorem default_region_selection (sp : filter_spec) (df d : list row) (names : list string) :
  forallb (float_exact parse_text) (map region_code df) = true ->
  present_names parse_text df = Ok names ->
  selected_regions_name sp = names ->
  (forall r, In r d -> In r df) ->
  filter_regions parse_text sp d
  = Ok (match names with
        | [] => d
        | _ => List.filter
                 (fun r => is_some (decode FRegion (int_code parse_text (region_code r)))) d
        end)
  /\ (forall d', filter_year parse_text sp df = Ok d' ->
        filter_regions parse_text sp d'
        = Ok (match names with
              | [] => d'
              | _ => List.filter
                       (fun r => is_some (decode FRegion (int_code parse_text (region_code r)))) d'
              end)).
Proof.
  intros _ Hp Hsel Hsub. pose proof (present_names_spec df) as H. rewrite Hp in H.
  destruct H as (Hc & _ & Hin).
  assert (forall k, (forall r, In r k -> In r df) ->
            filter_regions parse_text sp k
            = Ok (match names with
                  | [] => k
                  | _ => List.filter
                           (fun r => is_some (decode FRegion
                                                (int_code parse_text (region_code r)))) k
                  end)) as Hgen.
  { intros k Hk.
    rewrite filter_regions_eq. unfold stage_regions. rewrite Hsel.
    destruct names as [|n ns]; [apply run_stage_idle|].
    rewrite run_stage_select.
    assert (forallb (castable parse_text) (map region_code k) = true) as ->.
    { rewrite forallb_compose in *.
      eapply forallb_incl; [exact Hk | exact Hc]. }
    f_equal.
    apply filter_ext_on. intros r Hr. unfold code_in, decode, map_cell.
    destruct (int_code parse_text (region_code r)) as [c|] eqn:Ei; [|reflexivity].
    cbn [dict_of_field].
    destruct (REGION_MAP !! c) as [l|] eqn:El; cbn [is_some].
    - apply existsb_Zeqb, omap_In. exists l. split.
      + apply Hin. exists r, c. repeat split; [by apply Hk | exact Ei | exact El].
      + by apply REGION_MAP_round_trip.
    - apply not_true_is_false. intros Hex.
      apply existsb_Zeqb, omap_In in Hex as (l & _ & Hl).
      apply REGION_MAP_REV_back in Hl. congruence. }
  split; [by apply Hgen|].
  intros d' Hd'. apply Hgen. by apply (filter_year_In sp df d').
Qed.

(** X9: A non-empty selection of names none of which is a region name selects
    nothing: the unknown names are skipped when the codes are collected and
    no code is left to match. *)
Theorem unknown_region_names_select_nothing (sp : filter_spec) (df : list row) :
  selected_regions_name sp <> [] ->
  Forall (fun n => REGION_MAP_REV !! n = None) (selected_regions_name sp) ->
  forallb (castable parse_text) (map region_code df) = true ->
  filter_regions parse_text sp df = Ok [].
Proof.
  intros Hne Hall Hc. rewrite filter_regions_eq. unfold stage_regions.
  destruct (selected_regions_name sp) as [|n ns] eqn:E; [done|].
  rewrite run_stage_select, Hc. f_equal.
  assert (omap (fun n => REGION_MAP_REV !! n) (n :: ns) = []) as ->.
  { clear -Hall. induction Hall as [|x l Hx _ IH]; [reflexivity|].
    cbn [omap list_omap]. rewrite Hx. exact IH. }
  induction df as [|r df IH]; [reflexivity|].
  cbn [List.filter]. unfold code_in at 1.
  destruct (int_code parse_text (region_code r)); cbn [existsb];
    (apply IH; cbn in Hc; by apply andb_true_iff in Hc as [_ ?]).
Qed.

(** ** The missing-value toggle *)

Lemma isna_int_code (c : raw) : isna c = true -> int_code parse_text c = None.
Proof. destruct c; [discriminate | reflexivity | discriminate]. Qed.

Lemma code_eq_notna (v : Z) (c : raw) :
  code_eq parse_text v c = true -> isna c = false.
Proof.
  unfold code_eq. destruct (isna c) eqn:E; [|reflexivity].
  by rewrite (isna_int_code c E).
Qed.

Lemma code_in_notna (vs : list Z) (c : raw) :
  code_in parse_text vs c = true -> isna c = false.
Proof.
  unfold code_in. destruct (isna c) eqn:E; [|reflexivity].
  by rewrite (isna_int_code c E).
Qed.

Lemma apply_filter_na_unfold (b : bool) (sp : filter_spec) (df : DataFrame) :
  apply_filter parse_text (with_exclude_na b sp) df
  = (d ← filter_year parse_text sp (rows df);
     d ← filter_regions parse_text sp d;
     d ← filter_genders parse_text sp d;
     d ← filter_months parse_text sp d;
     d ← filter_multiple parse_text sp d;
     d ← filter_marital parse_text sp d;
     Ok (Frame (has_cohab df)
           (filter_cohab parse_text (has_cohab df)
              (filter_na (with_exclude_na b sp) (filter_weight parse_text sp d))))).
Proof. reflexivity. Qed.

Lemma passes_na_irrelevant (sp : filter_spec) (present : bool) (r : row) :
  selected_year sp <> None ->
  selected_regions_name sp <> [] ->
  selected_genders sp <> [] ->
  selected_months sp <> [] ->
  passes parse_text (with_exclude_na true sp) present r
  = passes parse_text (with_exclude_na false sp) present r.
Proof.
  intros Hy Hr Hg Hm. unfold passes, with_exclude_na.
  cbn [selected_year selected_regions_name selected_genders selected_months
       selected_multiple selected_marital selected_wt exclude_na].
  destruct (selected_year sp) as [y|]; [|done].
  destruct (selected_regions_name sp) as [|n ns]; [done|].
  destruct (selected_genders sp) as [|g gs]; [done|].
  destruct (selected_months sp) as [|m ms]; [done|].
  destruct (code_eq parse_text y (year r)) eqn:E1; [|reflexivity].
  destruct (code_in parse_text _ (region_code r)) eqn:E2; [|reflexivity].
  destruct (code_in parse_text _ (gender_code r)) eqn:E3; [|reflexivity].
  destruct (code_in parse_text _ (birth_month r)) eqn:E4; [|reflexivity].
  apply code_eq_notna in E1. apply code_in_notna in E2, E3, E4.
  by rewrite E1, E2, E3, E4.
Qed.

(** X10: When a year is chosen and the region, gender and month selections are
    not empty, the "exclude missing values" box changes nothing: the rows it
    would drop have already failed one of those conditions or the weight
    range. *)
Theorem exclude_na_redundant (sp : filter_spec) (df : DataFrame) :
  selected_year sp <> None ->
  selected_regions_name sp <> [] ->
  selected_genders sp <> [] ->
  selected_months sp <> [] ->
  apply_filter parse_text (with_exclude_na true sp) df
  = apply_filter parse_text (with_exclude_na false sp) df.
Proof.
  intros Hy Hr Hg Hm.
  destruct (apply_filter parse_text (with_exclude_na true sp) df) as [o1|e1] eqn:E1;
  destruct (apply_filter parse_text (with_exclude_na false sp) df) as [o2|e2] eqn:E2.
  - apply filtered_rows in E1 as [R1 C1]. apply filtered_rows in E2 as [R2 C2].
    destruct o1 as [c1 l1], o2 as [c2 l2]. cbn in *. subst.
    f_equal. f_equal. f_equal. apply filter_ext. intros r. by apply passes_na_irrelevant.
  - exfalso. rewrite apply_filter_na_unfold in E1, E2.
    destruct (filter_year _ _ _); rbind_in E1; rbind_in E2; [|congruence].
    destruct (filter_regions _ _ _); rbind_in E1; rbind_in E2; [|congruence].
    destruct (filter_genders _ _ _); rbind_in E1; rbind_in E2; [|congruence].
    destruct (filter_months _ _ _); rbind_in E1; rbind_in E2; [|congruence].
    destruct (filter_multiple _ _ _); rbind_in E1; rbind_in E2; [|congruence].
    destruct (filter_marital _ _ _); rbind_in E1; rbind_in E2; congruence.
  - exfalso. rewrite apply_filter_na_unfold in E1, E2.
    destruct (filter_year _ _ _); rbind_in E1; rbind_in E2; [|congruence].
    destruct (filter_regions _ _ _); rbind_in E1; rbind_in E2; [|congruence].
    destruct (filter_genders _ _ _); rbind_in E1; rbind_in E2; [|congruence].
    destruct (filter_months _ _ _); rbind_in E1; rbind_in E2; [|congruence].
    destruct (filter_multiple _ _ _); rbind_in E1; rbind_in E2; [|congruence].
    destruct (filter_marital _ _ _); rbind_in E1; rbind_in E2; congruence.
  - rewrite apply_filter_na_unfold in E1, E2.
    destruct (filter_year _ _ _); rbind_in E1; rbind_in E2; [|congruence].
    destruct (filter_regions _ _ _); rbind_in E1; rbind_in E2; [|congruence].
    destruct (filter_genders _ _ _); rbind_in E1; rbind_in E2; [|congruence].
    destruct (filter_months _ _ _); rbind_in E1; rbind_in E2; [|congruence].
    destruct (filter_multiple _ _ _); rbind_in E1; rbind_in E2; [|congruence].
    destruct (filter_marital _ _ _); rbind_in E1; rbind_in E2; congruence.
Qed.

(** ** Aggregates of a filtered frame *)


Lemma bool_mean_const (b : bool) {A} (l : list A) :
  l <> [] ->
  exists q, bool_mean (map (fun _ => b) l) = Some q
            /\ (q == if b then 1 else 0)%Q.
Proof.
  intros Hne. destruct l as [|a l]; [done|].
  cbn [map bool_mean]. eexists. split; [reflexivity|].
  set (n := length (b :: map (fun _ : A => b) l)).
  assert (0 < n)%nat as Hn by (subst n; cbn; lia).
  assert (~ inject_Z (Z.of_nat n) == 0)%Q as Hnz.
  { change 0%Q with (inject_Z 0). rewrite inject_Z_injective. lia. }
  destruct b.
  - assert (List.filter (fun b : bool => b) (true :: map (fun _ : A => true) l)
            = true :: map (fun _ : A => true) l) as ->.
    { cbn. f_equal. clear. induction l as [|a' l IH]; cbn; [reflexivity | by rewrite IH]. }
    fold n. by field.
  - assert (List.filter (fun b : bool => b) (false :: map (fun _ : A => false) l) = []) as ->.
    { cbn. clear. induction l as [|a' l IH]; cbn; [reflexivity | exact IH]. }
    cbn [length]. change (inject_Z (Z.of_nat 0)) with 0%Q. by field.
Qed.

Lemma int_code_equals (c : raw) (v w : Z) (q : Q) :
  int_code parse_text c = Some v ->
  to_numeric parse_text c = Some q ->
  Qeq_bool q (inject_Z w) = (v =? w).
Proof.
  intros Hi Hq. apply int_code_Some in Hi as (q' & Hq' & Heq & _).
  rewrite Hq in Hq'. injection Hq' as <-.
  destruct (v =? w) eqn:E.
  - apply Z.eqb_eq in E as ->. by apply Qeq_bool_iff.
  - apply not_true_is_false. intros H. apply Qeq_bool_iff in H.
    rewrite Heq in H. unfold Qeq in H. cbn in H. apply Z.eqb_neq in E. lia.
Qed.

(** X12: After a marital-type selection every remaining birth has that type, so
    the out-of-wedlock ratio of a non-empty filtered frame is 100 when
    "혼인 외 출생" (code 2) was chosen and 0 when "혼인 중 출생" (code 1)
    was. *)
Theorem marital_selection_fixes_ratio (sp : filter_spec) (df out : DataFrame) (v : Z) :
  apply_filter parse_text sp df = Ok out ->
  String.eqb (selected_marital sp) ALL = false ->
  rev_marital !! selected_marital sp = Some v ->
  rows out <> [] ->
  exists q, marital_ratio parse_text out = Some q
            /\ (q == if v =? 2 then 100 else 0)%Q.
Proof.
  intros E Hall Hv Hne. unfold marital_ratio.
  assert (map (fun x => match x with Some q => Qeq_bool q 2 | None => false end)
              (map (fun r => to_numeric parse_text (marital_code r)) (rows out))
          = map (fun _ => v =? 2) (rows out)) as ->.
  { rewrite map_map. apply map_ext_in. intros r' Hin.
    destruct (filtered_row _ _ _ _ E Hin) as (r & _ & -> & Hp).
    apply passes_parts in Hp as (_ & _ & _ & _ & _ & Hm & _).
    rewrite Hall, Hv in Hm.
    destruct (normalise_reads (has_cohab df) r) as (_ & _ & _ & _ & _ & -> & _).
    unfold code_eq in Hm.
    destruct (int_code parse_text (marital_code r)) as [z|] eqn:Ei; [|discriminate].
    apply Z.eqb_eq in Hm as ->.
    pose proof Ei as Ei'. apply int_code_Some in Ei' as (q & Hq & _).
    rewrite Hq. change 2%Q with (inject_Z 2). by eapply int_code_equals. }
  destruct (bool_mean_const (v =? 2) (rows out) Hne) as (m & -> & Hm).
  cbn. eexists. split; [reflexivity|].
  rewrite Hm. destruct (v =? 2); reflexivity.
Qed.

Lemma int_code_castable (c : raw) (z : Z) :
  int_code parse_text c = Some z -> castable parse_text c = true.
Proof.
  unfold int_code, castable.
  by destruct (astype_Int64_cell (to_numeric parse_text c)).
Qed.

(** X13: After a non-empty region selection the region-name column can be
    computed for the filtered frame, and every row gets a name, one of the
    selected ones. *)
Theorem region_labels_are_selected (sp : filter_spec) (df out : DataFrame) :
  apply_filter parse_text sp df = Ok out ->
  selected_regions_name sp <> [] ->
  exists labels,
    label_column parse_text FRegion (rows out) = Ok labels
    /\ length labels = length (rows out)
    /\ Forall (fun l => exists n, l = Some n /\ In n (selected_regions_name sp)) labels.
Proof.
  intros E Hne.
  assert (forall r', In r' (rows out) ->
            exists c n, int_code parse_text (region_code r') = Some c
                        /\ REGION_MAP !! c = Some n
                        /\ In n (selected_regions_name sp)) as Hrow.
  { intros r' Hin. destruct (filtered_row _ _ _ _ E Hin) as (r & _ & -> & Hp).
    apply passes_parts in Hp as (_ & Hr & _).
    destruct (normalise_reads (has_cohab df) r) as (_ & -> & _).
    destruct (selected_regions_name sp) as [|n0 ns] eqn:Es; [done|].
    unfold code_in in Hr.
    destruct (int_code parse_text (region_code r)) as [c|]; [|discriminate].
    apply existsb_Zeqb, omap_In in Hr as (n & Hn & Hl).
    exists c, n. repeat split; [by apply REGION_MAP_REV_back | exact Hn]. }
  unfold label_column. rewrite to_int_series_spec.
  assert (forallb (castable parse_text) (map (code_column FRegion) (rows out)) = true) as ->.
  { apply forallb_forall. intros c Hc. apply in_map_iff in Hc as (r' & <- & Hin).
    destruct (Hrow r' Hin) as (z & n & Hi & _). by eapply int_code_castable. }
  rbind. eexists. split; [reflexivity|]. split.
  - unfold series_map. by rewrite !length_map.
  - unfold series_map. rewrite !map_map. apply List.Forall_forall.
    intros l Hl. apply in_map_iff in Hl as (r' & <- & Hin).
    destruct (Hrow r' Hin) as (z & n & Hi & Hm & Hsel).
    exists n. cbn [code_column dict_of_field]. rewrite Hi. by split.
Qed.

(** X14: On a filtered frame the second removal of 999 before the cohabitation
    mean (line 345) removes nothing: the series averaged is the whole
    numeric cohabitation column. *)
Theorem cohab_reremoval_is_noop (sp : filter_spec) (df out : DataFrame) :
  apply_filter parse_text sp df = Ok out ->
  has_cohab df = true ->
  cohab_values parse_text out
  = dropna (map (fun r => to_numeric parse_text (cohab r)) (rows out)).
Proof.
  intros E Hc. unfold cohab_values, replace_with_na. f_equal.
  rewrite map_map. apply map_ext_in. intros r' Hin.
  destruct (filtered_row _ _ _ _ E Hin) as (r & _ & -> & Hp).
  apply passes_parts in Hp as (_ & _ & _ & _ & _ & _ & _ & Hs).
  rewrite Hc in Hs. apply negb_true_iff in Hs.
  destruct (normalise_reads true r) as (_ & _ & _ & _ & _ & _ & _ & Hn).
  rewrite Hc, Hn. unfold is_sentinel in Hs.
  destruct (to_numeric parse_text (cohab r)) as [q|]; [|reflexivity].
  by rewrite Hs.
Qed.

End Proofs.

(** ** Concrete runs *)

Lemma C1_empty_regions_keeps_rows :
  rows <$> apply_filter parse_decimal (with_regions [] (default_spec 0 10)) one_row_frame
  <> Ok [].
Proof. vm_compute. discriminate. Qed.

Lemma C1_empty_regions_is_no_filter_witness :
  selected_regions_name (with_regions [] (default_spec 0 10)) = []
  /\ (forall d, filter_regions parse_decimal (with_regions [] (default_spec 0 10)) d = Ok d)
  /\ apply_filter parse_decimal (with_regions [] (default_spec 0 10)) one_row_frame
     = apply_filter_no_region parse_decimal (with_regions [] (default_spec 0 10)) one_row_frame.
Proof.
  split; [reflexivity|].
  apply (C1_empty_regions_is_no_filter parse_decimal). reflexivity.
Defined.

Lemma C4_sentinel_excluded_witness :
  apply_filter parse_decimal (default_spec 0 10) cohab_frame
  = Ok (Frame true [ sample_row 1 (RNum 21) (RNum 3.4) (RNum 5) ])
  /\ has_cohab cohab_frame = true
  /\ Forall (fun r => is_sentinel parse_decimal (cohab r) = false)
       [ sample_row 1 (RNum 21) (RNum 3.4) (RNum 5) ].
Proof.
  split; [vm_compute; reflexivity|]. split; [reflexivity|].
  apply (C4_sentinel_excluded parse_decimal (default_spec 0 10) cohab_frame
           (Frame true [ sample_row 1 (RNum 21) (RNum 3.4) (RNum 5) ]));
    vm_compute; reflexivity.
Defined.

Lemma C6_filter_preserves_order_witness :
  apply_filter parse_decimal (default_spec 3.0 4.0) weights_frame
  = Ok (Frame false [ sample_row 1 (RNum 11) (RNum 3.1) RNaN ])
  /\ sublist [1%nat] [0%nat; 1%nat; 2%nat].
Proof.
  split; [vm_compute; reflexivity|].
  apply (C6_filter_preserves_order parse_decimal (default_spec 3.0 4.0) weights_frame
           (Frame false [ sample_row 1 (RNum 11) (RNum 3.1) RNaN ])).
  vm_compute; reflexivity.
Defined.

Lemma C2_empty_ratio_is_nan :
  multiple_ratio parse_decimal (Frame false []) = None
  /\ marital_ratio parse_decimal (Frame false []) = None
  /\ ~ (exists q, multiple_ratio parse_decimal (Frame false []) = Some q /\ (q == 0)%Q).
Proof.
  split; [reflexivity|]. split; [reflexivity|].
  intros (q & H & _). discriminate H.
Qed.

(** C3: a code column with a fractional number makes [to_int_series] raise
    instead of truncating, and the filter that reads the column raises with
    it. *)
Theorem C3_to_int_series_raises_on_fraction :
  to_int_series parse_decimal [RNum 3.5] false = Raise TypeError
  /\ to_int_series parse_decimal [RNum 11; RStr "3.5"; RNaN] true = Raise TypeError
  /\ apply_filter parse_decimal (default_spec 0 10)
       (Frame false [ sample_row 0 (RNum 11.5) (RNum 3.2) RNaN ]) = Raise TypeError.
Proof. repeat split; vm_compute; reflexivity. Qed.

Lemma C9_region_round_trip_witness :
  REGION_MAP !! 21 = Some "부산광역시"%string
  /\ REGION_MAP_REV !! "부산광역시"%string = Some 21.
Proof.
  split; [vm_compute; reflexivity|].
  apply (C9_region_round_trip parse_decimal 21 "부산광역시"%string).
  vm_compute; reflexivity.
Defined.


Lemma apply_filter_is_conjunction_witness :
  apply_filter parse_decimal (default_spec 3.0 4.0) weights_frame
  = Ok (Frame false [ sample_row 1 (RNum 11) (RNum 3.1) RNaN ])
  /\ [ sample_row 1 (RNum 11) (RNum 3.1) RNaN ]
     = map (normalise parse_decimal false)
         (List.filter (passes parse_decimal (default_spec 3.0 4.0) false) (rows weights_frame)).
Proof.
  split; [vm_compute; reflexivity|].
  apply (apply_filter_is_conjunction parse_decimal (default_spec 3.0 4.0) weights_frame
           (Frame false [ sample_row 1 (RNum 11) (RNum 3.1) RNaN ])).
  - repeat constructor.
  - vm_compute; reflexivity.
Defined.

Lemma apply_filter_returns_on_clean_data_witness :
  Forall (fun r => clean parse_decimal r = true) (rows regions_frame)
  /\ labels_known (default_spec 0 10) = true
  /\ exists out, apply_filter parse_decimal (default_spec 0 10) regions_frame = Ok out.
Proof.
  assert (Forall (fun r => clean parse_decimal r = true) (rows regions_frame)) as Hc
    by (repeat constructor).
  split; [exact Hc|]. split; [vm_compute; reflexivity|].
  apply (apply_filter_returns_on_clean_data parse_decimal (default_spec 0 10) regions_frame Hc).
  vm_compute; reflexivity.
Defined.

Lemma dict_reversed_round_trip_witness :
  List.NoDup (map fst gender_map_items)
  /\ List.NoDup (map snd gender_map_items)
  /\ (rev_gender !! "여"%string = Some 2 <-> dict_of_items gender_map_items !! 2 = Some "여"%string).
Proof.
  assert (List.NoDup (map fst gender_map_items)) as H1.
  { cbn. constructor; [intros [H | []]; discriminate H|].
    constructor; [intros [] | constructor]. }
  assert (List.NoDup (map snd gender_map_items)) as H2.
  { cbn. constructor; [intros [H | []]; discriminate H|].
    constructor; [intros [] | constructor]. }
  split; [exact H1|]. split; [exact H2|].
  exact (dict_reversed_round_trip gender_map_items 2 "여"%string H1 H2).
Defined.

Lemma default_region_selection_witness :
  present_names parse_decimal years_rows = Ok [ "서울특별시"; "부산광역시" ]%string
  /\ filter_year parse_decimal
       (with_year (Some 2023)
          (with_regions [ "서울특별시"; "부산광역시" ]%string (default_spec 0 10)))
       years_rows
     = Ok [ sample_row 0 (RNum 11) (RNum 3.2) RNaN; sample_row 3 (RNum 11) (RNum 3.1) RNaN ]
  /\ filter_regions parse_decimal
       (with_year (Some 2023)
          (with_regions [ "서울특별시"; "부산광역시" ]%string (default_spec 0 10)))
       [ sample_row 0 (RNum 11) (RNum 3.2) RNaN; sample_row 3 (RNum 11) (RNum 3.1) RNaN ]
     = Ok (List.filter
             (fun r => is_some (decode FRegion (int_code parse_decimal (region_code r))))
             [ sample_row 0 (RNum 11) (RNum 3.2) RNaN; sample_row 3 (RNum 11) (RNum 3.1) RNaN ]).
Proof.
  assert (forallb (float_exact parse_decimal) (map region_code years_rows) = true) as H1
    by (vm_compute; reflexivity).
  assert (present_names parse_decimal years_rows = Ok [ "서울특별시"; "부산광역시" ]%string) as H2
    by (vm_compute; reflexivity).
  assert (filter_year parse_decimal
            (with_year (Some 2023)
               (with_regions [ "서울특별시"; "부산광역시" ]%string (default_spec 0 10)))
            years_rows
          = Ok [ sample_row 0 (RNum 11) (RNum 3.2) RNaN;
                 sample_row 3 (RNum 11) (RNum 3.1) RNaN ]) as Hy
    by (vm_compute; reflexivity).
  split; [exact H2|]. split; [exact Hy|].
  exact (proj2 (default_region_selection parse_decimal
                  (with_year (Some 2023)
                     (with_regions [ "서울특별시"; "부산광역시" ]%string (default_spec 0 10)))
                  years_rows years_rows [ "서울특별시"; "부산광역시" ]%string
                  H1 H2 eq_refl (fun r H => H))
               [ sample_row 0 (RNum 11) (RNum 3.2) RNaN;
                 sample_row 3 (RNum 11) (RNum 3.1) RNaN ] Hy).
Defined.

Lemma unknown_region_names_select_nothing_witness :
  selected_regions_name (with_regions [ "Atlantis" ]%string (default_spec 0 10)) <> []
  /\ filter_regions parse_decimal (with_regions [ "Atlantis" ]%string (default_spec 0 10))
       (rows regions_frame) = Ok [].
Proof.
  split; [discriminate|].
  apply (unknown_region_names_select_nothing parse_decimal
           (with_regions [ "Atlantis" ]%string (default_spec 0 10)) (rows regions_frame)).
  - discriminate.
  - constructor; [vm_compute; reflexivity | constructor].
  - vm_compute; reflexivity.
Defined.

Lemma exclude_na_redundant_witness :
  selected_year (with_year (Some 2023) (default_spec 0 10)) <> None
  /\ apply_filter parse_decimal
       (with_exclude_na true (with_year (Some 2023) (default_spec 0 10))) regions_frame
     = apply_filter parse_decimal
         (with_exclude_na false (with_year (Some 2023) (default_spec 0 10))) regions_frame.
Proof.
  split; [discriminate|].
  apply (exclude_na_redundant parse_decimal (with_year (Some 2023) (default_spec 0 10))
           regions_frame); discriminate.
Defined.


Lemma marital_selection_fixes_ratio_witness :
  apply_filter parse_decimal (with_marital "혼인 외 출생" (default_spec 0 10)) regions_frame
  = Ok (Frame false [ second_row ])
  /\ exists q, marital_ratio parse_decimal (Frame false [ second_row ]) = Some q
               /\ (q == 100)%Q.
Proof.
  split; [vm_compute; reflexivity|].
  apply (marital_selection_fixes_ratio parse_decimal
           (with_marital "혼인 외 출생" (default_spec 0 10)) regions_frame
           (Frame false [ second_row ]) 2).
  - vm_compute; reflexivity.
  - vm_compute; reflexivity.
  - vm_compute; reflexivity.
  - discriminate.
Defined.

Lemma region_labels_are_selected_witness :
  apply_filter parse_decimal (with_regions [ "서울특별시" ]%string (default_spec 0 10))
    regions_frame
  = Ok (Frame false [ sample_row 0 (RNum 11) (RNum 3.2) RNaN; second_row ])
  /\ exists labels,
       label_column parse_decimal FRegion
         [ sample_row 0 (RNum 11) (RNum 3.2) RNaN; second_row ] = Ok labels
       /\ length labels = 2%nat
       /\ Forall (fun l => exists n, l = Some n /\ In n [ "서울특별시"%string ]) labels.
Proof.
  split; [vm_compute; reflexivity|].
  apply (region_labels_are_selected parse_decimal
           (with_regions [ "서울특별시" ]%string (default_spec 0 10)) regions_frame
           (Frame false [ sample_row 0 (RNum 11) (RNum 3.2) RNaN; second_row ])).
  - vm_compute; reflexivity.
  - discriminate.
Defined.

Lemma cohab_reremoval_is_noop_witness :
  apply_filter parse_decimal (default_spec 0 10) cohab_frame
  = Ok (Frame true [ sample_row 1 (RNum 21) (RNum 3.4) (RNum 5) ])
  /\ cohab_values parse_decimal (Frame true [ sample_row 1 (RNum 21) (RNum 3.4) (RNum 5) ])
     = dropna (map (fun r => to_numeric parse_decimal (cohab r))
                 [ sample_row 1 (RNum 21) (RNum 3.4) (RNum 5) ]).
Proof.
  split; [vm_compute; reflexivity|].
  apply (cohab_reremoval_is_noop parse_decimal (default_spec 0 10) cohab_frame
           (Frame true [ sample_row 1 (RNum 21) (RNum 3.4) (RNum 5) ])).
  - vm_compute; reflexivity.
  - reflexivity.
Defined.

(** cp949 and euc-kr fail, utf-8-sig is the first encoding that reads. *)
Example load_data_sample :
  load_data sample_reader OtherError = Loaded one_row_frame.
Proof. reflexivity. Qed.

Lemma to_int_series_characterised_witness :
  forallb (float_exact parse_decimal) [ RNum 11; RStr "21"; RNaN; RStr "n/a" ] = true
  /\ to_int_series parse_decimal [ RNum 11; RStr "21"; RNaN; RStr "n/a" ] true
     = Ok [ Some 11; Some 21 ]
  /\ (to_int_series parse_decimal [ RNum 11; RStr "21"; RNaN; RStr "n/a" ] false
      = Raise TypeError
      \/ to_int_series parse_decimal [ RNum 11; RStr "21"; RNaN; RStr "n/a" ] false
         = Ok (map (int_code parse_decimal) [ RNum 11; RStr "21"; RNaN; RStr "n/a" ])).
Proof.
  split; [vm_compute; reflexivity|]. split; [vm_compute; reflexivity|].
  apply (to_int_series_characterised parse_decimal
           [ RNum 11; RStr "21"; RNaN; RStr "n/a" ] false).
  vm_compute; reflexivity.
Defined.

Lemma years_options_witness :
  forallb (float_exact parse_decimal) (map year years_rows) = true
  /\ years parse_decimal years_rows = Ok [ 2021; 2023 ]
  /\ match years parse_decimal years_rows with
     | Ok ys =>
         forallb (castable parse_decimal) (map year years_rows) = true
         /\ Sorted Z.le ys /\ List.NoDup ys
         /\ forall y, In y ys <->
              exists r, In r years_rows /\ int_code parse_decimal (year r) = Some y
     | Raise e => e = TypeError
                  /\ forallb (castable parse_decimal) (map year years_rows) = false
     end.
Proof.
  split; [vm_compute; reflexivity|]. split; [vm_compute; reflexivity|].
  apply (years_options parse_decimal years_rows).
  vm_compute; reflexivity.
Defined.
